(** * Watchdog lifecycle manager (patroni/watchdog/base.py)

    A shallow embedding of [WatchdogConfig], the abstract device class
    [WatchdogBase], [NullWatchdog] and the [Watchdog] facade, followed by the
    properties of the manager that the specification states.

    Modelling choices:
    - Python integers are [Z]; [//] is [Z.div] (both round towards minus
      infinity for a positive divisor).
    - A configuration snapshot is the record of the six attributes that
      [WatchdogConfig.__init__] stores.  Its extraction from raw
      configuration (the defaults, the dictionary of driver options) comes
      before everything stated here and is not represented: [reload_config]
      and [__init__] take the snapshot.  [parse_mode] is modelled on its
      own.
    - [driver_config] is a Python dict compared with [==]: a [gmap], whose
      equality is extensional.
    - The platform devices live outside this file of the repository.  They are
      an arbitrary type [Dev] carrying an instance of the class
      [WatchdogBase]; a method that may raise [WatchdogError] returns a
      [res].  [WatchdogError] is the only exception of the device contract.
    - The manager's methods mutate [self] and may raise: they run in the monad
      [M], which threads the manager, keeps the mutations done before a raise
      and records what was done to the outside world in a list of events.
    - Every public method holds the manager's reentrant lock for its whole
      duration; a method is therefore one atomic transition of the manager
      and the lock itself is not represented. *)

From stdpp Require Import base decidable option list strings gmap.
From Stdlib Require Import ZArith Lia.

Open Scope Z_scope.

(** ** Modes and the configuration snapshot *)

Inductive Mode := MODE_REQUIRED | MODE_AUTOMATIC | MODE_OFF.

#[global] Instance Mode_eq_dec : EqDecision Mode.
Proof. solve_decision. Defined.

Record WatchdogConfig := mkWatchdogConfig {
  mode : Mode;
  ttl : Z;
  loop_wait : Z;
  safety_margin : Z;
  driver : string;
  driver_config : gmap string string
}.

(** [WatchdogConfig.__eq__]: all six attributes are equal. *)
#[global] Instance WatchdogConfig_eq_dec : EqDecision WatchdogConfig.
Proof. solve_decision. Defined.

(** [WatchdogConfig.timeout] (property). *)
Definition timeout (c : WatchdogConfig) : Z :=
  if bool_decide (safety_margin c = -1) then ttl c `div` 2
  else ttl c - safety_margin c.

(** [WatchdogConfig.timing_slack] (property). *)
Definition timing_slack (c : WatchdogConfig) : Z :=
  timeout c - loop_wait c.

(** ** Results of calls that may raise [WatchdogError] *)

(** The exception carries its message. *)
Definition WatchdogError := string.

Inductive res (A : Type) :=
  | Ok (a : A)
  | Raise (e : WatchdogError).
Arguments Ok {A} a.
Arguments Raise {A} e.

(** ** The abstract device class

    [is_running] and [is_healthy] are properties that answer; the property
    [can_be_disabled] "may raise WatchdogError".  [open], [close],
    [keepalive] and [set_timeout] change the device: they give the device
    after the call together with the way the call ended.  [get_timeout] and
    [has_set_timeout] read the device. *)

Module WatchdogBase.

Class WatchdogBase (Dev : Type) := {
  is_running : Dev -> bool;
  is_healthy : Dev -> bool;
  can_be_disabled : Dev -> res bool;
  open : Dev -> Dev * res unit;
  close : Dev -> Dev * res unit;
  keepalive : Dev -> Dev * res unit;
  get_timeout : Dev -> res Z;
  has_set_timeout : Dev -> res bool;
  set_timeout : Dev -> Z -> Dev * res unit;
  describe : Dev -> string
}.

(** The body of [WatchdogBase.set_timeout], which a subclass inherits when it
    does not define its own: it raises. *)
Definition not_supported (class_name : string) : WatchdogError :=
  "Setting timeout is not supported on " +:+ class_name.

End WatchdogBase.
Import WatchdogBase.

(** ** NullWatchdog

    It defines [open], [close], [keepalive] and [get_timeout] and inherits
    the rest from [WatchdogBase]. *)

Inductive NullWatchdog := NullWatchdog_new.

#[global] Instance NullWatchdog_class : WatchdogBase NullWatchdog := {|
  is_running _ := false;
  is_healthy _ := false;
  can_be_disabled _ := Ok true;
  open d := (d, Ok tt);
  close d := (d, Ok tt);
  keepalive d := (d, Ok tt);
  get_timeout _ := Ok 1000000000;
  has_set_timeout _ := Ok false;
  set_timeout d _ := (d, Raise (not_supported "NullWatchdog"));
  describe _ := "NullWatchdog"
|}.

(** ** The object held in [self.impl]: the null device or a platform device *)

Inductive Impl (Dev : Type) :=
  | Null
  | Platform (d : Dev).
Arguments Null {Dev}.
Arguments Platform {Dev} d.

(** The class attribute [is_null]. *)
Definition is_null {Dev} (i : Impl Dev) : bool :=
  match i with Null => true | Platform _ => false end.

Definition on_impl {Dev} (f : Dev -> Dev * res unit)
    (g : NullWatchdog -> NullWatchdog * res unit) (i : Impl Dev)
  : Impl Dev * res unit :=
  match i with
  | Null => (Null, snd (g NullWatchdog_new))
  | Platform d => (Platform (fst (f d)), snd (f d))
  end.

(** Method dispatch on the object in [self.impl]. *)
#[global] Instance Impl_class {Dev} `{WatchdogBase Dev} : WatchdogBase (Impl Dev) := {|
  is_running i :=
    match i with Null => is_running NullWatchdog_new | Platform d => is_running d end;
  is_healthy i :=
    match i with Null => is_healthy NullWatchdog_new | Platform d => is_healthy d end;
  can_be_disabled i :=
    match i with
    | Null => can_be_disabled NullWatchdog_new
    | Platform d => can_be_disabled d
    end;
  open := on_impl open open;
  close := on_impl close close;
  keepalive := on_impl keepalive keepalive;
  get_timeout i :=
    match i with Null => get_timeout NullWatchdog_new | Platform d => get_timeout d end;
  has_set_timeout i :=
    match i with
    | Null => has_set_timeout NullWatchdog_new
    | Platform d => has_set_timeout d
    end;
  set_timeout i t := on_impl (fun d => set_timeout d t) (fun d => set_timeout d t) i;
  describe i :=
    match i with Null => describe NullWatchdog_new | Platform d => describe d end
|}.

(** ** What the manager does to the outside world *)

Inductive Level := DEBUG | INFO | WARNING | ERROR.

(** The log messages of the file, one constructor per call site, with the
    values the message is formatted with. *)
Inductive Message :=
  | MsgUnsupportedPlatform
  | MsgNotSupported (ttl loop_wait : Z)
  | MsgCouldNotActivate (device : string) (e : WatchdogError)
  | MsgCannotBeDisabled
  | MsgRequiredNotConfigured
  | MsgRequiredUnsafe (timeout : Z) (actual_timeout : option Z)
  | MsgUnsafeTimeout (actual_timeout : option Z) (timeout : Z)
  | MsgActivated (device : string) (actual_timeout : option Z) (timing_slack : Z)
  | MsgRequiredNotActivated
  | MsgLoopWaitTooLong (loop_wait actual_timeout : Z)
  | MsgDisablingUnsafe
  | MsgWillReboot (timeout : Z)
  | MsgDisableError (e : WatchdogError)
  | MsgUpdated (device : string) (timeout timing_slack : Z)
  | MsgKeepaliveError (e : WatchdogError).

(** The calls that change a device. *)
Inductive Op :=
  | OpOpen
  | OpClose
  | OpKeepalive
  | OpSetTimeout (timeout : Z).

(** The three blocks of [Watchdog.keepalive] that apply a changed
    configuration. *)
Inductive Branch := BranchMode | BranchDriver | BranchTimeout.

(** - [Call i o]: method [o] was called on the object [i] (as it was before
      the call);
    - [GetImpl i]: [WatchdogConfig.get_impl] was called and constructed [i];
    - [Log l m]: a message went to the logger;
    - [Enter b]: control entered the body of block [b] of
      [Watchdog.keepalive] (a mark, not an effect). *)
Inductive Event (Dev : Type) :=
  | Call (i : Impl Dev) (o : Op)
  | GetImpl (i : Impl Dev)
  | Log (l : Level) (m : Message)
  | Enter (b : Branch).
Arguments Call {Dev} i o.
Arguments GetImpl {Dev} i.
Arguments Log {Dev} l m.
Arguments Enter {Dev} b.

(** ** The manager *)

Record Watchdog (Dev : Type) := mkWatchdog {
  config : WatchdogConfig;
  active_config : WatchdogConfig;
  active : bool;
  impl : Impl Dev
}.
Arguments mkWatchdog {Dev}.
Arguments config {Dev}.
Arguments active_config {Dev}.
Arguments active {Dev}.
Arguments impl {Dev}.

(** One run of a method: how it ended, the manager it leaves and the events
    it produced, oldest first. *)
Record Run (Dev A : Type) := mkRun {
  outcome : res A;
  final : Watchdog Dev;
  events : list (Event Dev)
}.
Arguments mkRun {Dev A}.
Arguments outcome {Dev A}.
Arguments final {Dev A}.
Arguments events {Dev A}.

Definition M (Dev A : Type) : Type := Watchdog Dev -> Run Dev A.

Definition ret {Dev A} (a : A) : M Dev A := fun w => mkRun (Ok a) w [].

(** The events [l] happened, then the run [r]. *)
Definition after {Dev A} (l : list (Event Dev)) (r : Run Dev A) : Run Dev A :=
  mkRun (outcome r) (final r) (l ++ events r).

Definition bind {Dev A B} (x : M Dev A) (f : A -> M Dev B) : M Dev B := fun w =>
  let r := x w in
  match outcome r with
  | Ok a => after (events r) (f a (final r))
  | Raise e => mkRun (Raise e) (final r) (events r)
  end.

(** [try: body except WatchdogError as e: handler]. *)
Definition try_except {Dev A} (body : M Dev A) (handler : WatchdogError -> M Dev A)
  : M Dev A := fun w =>
  let r := body w in
  match outcome r with
  | Ok _ => r
  | Raise e => after (events r) (handler e (final r))
  end.

Declare Scope wd_scope.
Delimit Scope wd_scope with wd.
Notation "x ← y ; z" := (bind y (fun x => z))
  (at level 20, y at level 100, z at level 200, only parsing) : wd_scope.
Notation "x ;; z" := (bind x (fun _ => z))
  (at level 100, z at level 200, only parsing, right associativity) : wd_scope.

Definition self {Dev} : M Dev (Watchdog Dev) := fun w => mkRun (Ok w) w [].

Definition emit {Dev} (ev : Event Dev) : M Dev unit := fun w => mkRun (Ok tt) w [ev].

Definition logger {Dev} (l : Level) (m : Message) : M Dev unit := emit (Log l m).

Definition set_config {Dev} (c : WatchdogConfig) : M Dev unit := fun w =>
  mkRun (Ok tt) (mkWatchdog c (active_config w) (active w) (impl w)) [].

Definition set_active_config {Dev} (c : WatchdogConfig) : M Dev unit := fun w =>
  mkRun (Ok tt) (mkWatchdog (config w) c (active w) (impl w)) [].

Definition set_active {Dev} (b : bool) : M Dev unit := fun w =>
  mkRun (Ok tt) (mkWatchdog (config w) (active_config w) b (impl w)) [].

Definition set_impl {Dev} (i : Impl Dev) : M Dev unit := fun w =>
  mkRun (Ok tt) (mkWatchdog (config w) (active_config w) (active w) i) [].

(** [self.impl.m()] for a method that reads the device. *)
Definition read {Dev A} (m : Impl Dev -> res A) : M Dev A := fun w =>
  mkRun (m (impl w)) w [].

(** [self.impl.m(...)] for a method that changes the device. *)
Definition call {Dev} (o : Op) (m : Impl Dev -> Impl Dev * res unit) : M Dev unit :=
  fun w =>
    mkRun (snd (m (impl w)))
          (mkWatchdog (config w) (active_config w) (active w) (fst (m (impl w))))
          [Call (impl w) o].

(** Truth value of [actual_timeout and actual_timeout > timeout], where
    [actual_timeout] is an [Optional[int]]: [None] and [0] are false. *)
Definition and_exceeds (actual_timeout : option Z) (timeout : Z) : bool :=
  match actual_timeout with
  | None => false
  | Some t => negb (bool_decide (t = 0)) && bool_decide (timeout < t)
  end.

(** ** The methods of [Watchdog] *)

Module Watchdog.
Section Methods.

Context {Dev : Type} `{WatchdogBase Dev}.

(** The platform on which the program runs ([platform.system()]) and the
    two device constructors of [patroni.watchdog.linux], which is not part
    of this file. *)
Variable platform_system : string.
Variable TestingWatchdogDevice_from_config : gmap string string -> Dev.
Variable LinuxWatchdogDevice_from_config : gmap string string -> Dev.

Local Open Scope wd_scope.

(** [WatchdogConfig.get_impl]. *)
Definition get_impl (c : WatchdogConfig) : Impl Dev :=
  if bool_decide (driver c = "testing") then
    Platform (TestingWatchdogDevice_from_config (driver_config c))
  else if bool_decide (platform_system = "Linux") && bool_decide (driver c = "default") then
    Platform (LinuxWatchdogDevice_from_config (driver_config c))
  else Null.

(** [self.impl = self.config.get_impl()]. *)
Definition impl_from_config : M Dev unit :=
  w ← self;
  emit (GetImpl (get_impl (config w)));;
  set_impl (get_impl (config w)).

(** The outcome of constructing the manager: the constructor returns, or
    [sys.exit] ends the process. *)
Inductive Started :=
  | Constructed (w : Watchdog Dev)
  | SystemExit (status : Z).

(** [Watchdog.__init__]. *)
Definition __init__ (c : WatchdogConfig) : Started * list (Event Dev) :=
  if bool_decide (mode c = MODE_OFF) then
    (Constructed (mkWatchdog c c false Null), [])
  else
    let i := get_impl c in
    if bool_decide (mode c = MODE_REQUIRED) && is_null i then
      (SystemExit 1, [GetImpl i; Log ERROR MsgUnsupportedPlatform])
    else (Constructed (mkWatchdog c c false i), [GetImpl i]).

(** [Watchdog._set_timeout]. *)
Definition _set_timeout : M Dev (option Z) :=
  w ← self;
  settable ← read has_set_timeout;
  (if settable : bool then
     call (OpSetTimeout (timeout (config w))) (fun i => set_timeout i (timeout (config w)))
   else ret tt);;
  actual_timeout ← read get_timeout;
  w ← self;
  if is_running (impl w) && bool_decide (actual_timeout < loop_wait (config w)) then
    logger ERROR (MsgLoopWaitTooLong (loop_wait (config w)) actual_timeout);;
    disableable ← read can_be_disabled;
    if disableable : bool then
      logger INFO MsgDisablingUnsafe;;
      call OpClose close;;
      set_impl Null;;
      ret None
    else ret (Some actual_timeout)
  else ret (Some actual_timeout).

(** [Watchdog._activate], the body of its [try] statement. *)
Definition _activate_try : M Dev (option Z) :=
  call OpOpen open;;
  _set_timeout.

(** [Watchdog._activate], its [except] clause. *)
Definition _activate_except (e : WatchdogError) : M Dev (option Z) :=
  w ← self;
  logger (if bool_decide (mode (config w) = MODE_REQUIRED) then WARNING else DEBUG)
         (MsgCouldNotActivate (describe (impl w)) e);;
  set_impl Null;;
  t ← read get_timeout;
  ret (Some t).

(** [Watchdog._activate], first part: up to the end of the [try] statement.
    It gives the value of the local variable [actual_timeout]. *)
Definition _activate_arm : M Dev (option Z) :=
  w ← self;
  set_active_config (config w);;
  (if bool_decide (timing_slack (config w) < 0) then
     logger WARNING (MsgNotSupported (ttl (config w)) (loop_wait (config w)));;
     set_impl Null
   else ret tt);;
  try_except _activate_try _activate_except.

(** [Watchdog._activate], the last [if] statement and [return True]. *)
Definition _activate_report (actual_timeout : option Z) : M Dev bool :=
  w ← self;
  if is_running (impl w) then
    logger INFO (MsgActivated (describe (impl w)) actual_timeout (timing_slack (config w)));;
    ret true
  else if bool_decide (mode (config w) = MODE_REQUIRED) then
    logger ERROR MsgRequiredNotActivated;;
    ret false
  else ret true.

(** [Watchdog._activate], second part: the checks after the [try]
    statement. *)
Definition _activate_check (actual_timeout : option Z) : M Dev bool :=
  w ← self;
  (if is_running (impl w) then
     disableable ← read can_be_disabled;
     if disableable : bool then ret tt else logger WARNING MsgCannotBeDisabled
   else ret tt);;
  if negb (is_running (impl w)) || and_exceeds actual_timeout (timeout (config w)) then
    if bool_decide (mode (config w) = MODE_REQUIRED) then
      (if is_null (impl w) then logger ERROR MsgRequiredNotConfigured
       else logger ERROR (MsgRequiredUnsafe (timeout (config w)) actual_timeout));;
      ret false
    else
      (if is_null (impl w) then ret tt
       else logger WARNING (MsgUnsafeTimeout actual_timeout (timeout (config w))));;
      _activate_report actual_timeout
  else _activate_report actual_timeout.

(** [Watchdog._activate]. *)
Definition _activate : M Dev bool :=
  actual_timeout ← _activate_arm;
  _activate_check actual_timeout.

(** [Watchdog.activate]. *)
Definition activate : M Dev bool :=
  set_active true;;
  _activate.

(** [Watchdog._disable], the body of its [try] statement. *)
Definition _disable_try : M Dev unit :=
  w ← self;
  (if is_running (impl w) then
     disableable ← read can_be_disabled;
     if disableable : bool then ret tt
     else
       call OpKeepalive keepalive;;
       t ← read get_timeout;
       logger WARNING (MsgWillReboot t)
   else ret tt);;
  call OpClose close.

(** [Watchdog._disable]. *)
Definition _disable : M Dev unit :=
  try_except _disable_try (fun e => logger ERROR (MsgDisableError e)).

(** [Watchdog.disable]. *)
Definition disable : M Dev unit :=
  _disable;;
  set_active false.

(** [Watchdog.reload_config]; the argument is the snapshot
    [WatchdogConfig(config)]. *)
Definition reload_config (c : WatchdogConfig) : M Dev unit :=
  set_config c;;
  w ← self;
  (if bool_decide (mode (config w) = MODE_OFF) then
     (if active w then _disable else ret tt);;
     set_active_config (config w);;
     set_impl Null
   else ret tt);;
  w ← self;
  if negb (active w) then
    (if bool_decide (driver (config w) ≠ driver (active_config w))
        || bool_decide (driver_config (config w) ≠ driver_config (active_config w))
     then impl_from_config else ret tt);;
    set_active_config (config w)
  else ret tt.

(** The three blocks of [Watchdog.keepalive] that apply pending changes. *)
Definition keepalive_mode : M Dev unit :=
  w ← self;
  if bool_decide (mode (config w) ≠ MODE_OFF)
     && bool_decide (mode (active_config w) = MODE_OFF) then
    emit (Enter BranchMode);;
    impl_from_config;;
    _activate;;
    ret tt
  else ret tt.

Definition keepalive_driver : M Dev unit :=
  w ← self;
  if bool_decide (driver (config w) ≠ driver (active_config w))
     || bool_decide (driver_config (config w) ≠ driver_config (active_config w)) then
    emit (Enter BranchDriver);;
    _disable;;
    impl_from_config;;
    _activate;;
    ret tt
  else ret tt.

Definition keepalive_timeout : M Dev unit :=
  w ← self;
  if bool_decide (timeout (config w) ≠ timeout (active_config w)) then
    emit (Enter BranchTimeout);;
    call (OpSetTimeout (timeout (config w))) (fun i => set_timeout i (timeout (config w)));;
    w ← self;
    if is_running (impl w) then
      t ← read get_timeout;
      logger INFO (MsgUpdated (describe (impl w)) t (timing_slack (config w)))
    else ret tt
  else ret tt.

(** [Watchdog.keepalive], the body of its [try] statement. *)
Definition keepalive_try : M Dev unit :=
  w ← self;
  (if active w then call OpKeepalive WatchdogBase.keepalive else ret tt);;
  w ← self;
  if active w && bool_decide (config w ≠ active_config w) then
    keepalive_mode;;
    keepalive_driver;;
    keepalive_timeout;;
    w ← self;
    set_active_config (config w)
  else ret tt.

(** [Watchdog.keepalive]. *)
Definition keepalive : M Dev unit :=
  try_except keepalive_try (fun e => logger ERROR (MsgKeepaliveError e)).

(** [Watchdog.is_running] (property). *)
Definition is_running (w : Watchdog Dev) : bool :=
  WatchdogBase.is_running (impl w).

(** [Watchdog.is_healthy] (property). *)
Definition is_healthy (w : Watchdog Dev) : bool :=
  if bool_decide (mode (config w) ≠ MODE_REQUIRED) then true
  else bool_decide (0 <= timing_slack (config w)) && WatchdogBase.is_healthy (impl w).

End Methods.
End Watchdog.

(** ** A simulated platform device

    A device in the style of a Linux watchdog character device, used to run
    the manager on concrete inputs.  It is open or closed, has a timeout in
    effect, and is described by whether its node exists, whether writes to it
    succeed, whether its timeout can be set and whether closing stops it.  A
    device that closing does not stop keeps running after [close]. *)

Module SimDevice.

Record t := mk {
  fd : bool;
  hw_timeout : Z;
  present : bool;
  responsive : bool;
  settable : bool;
  magic_close : bool
}.

Definition closed_error : WatchdogError := "Watchdog device is closed".

Definition sim_open (d : t) : t * res unit :=
  if present d then
    (mk true (hw_timeout d) (present d) (responsive d) (settable d) (magic_close d), Ok tt)
  else (d, Raise "Can't open watchdog device").

Definition sim_close (d : t) : t * res unit :=
  if fd d && magic_close d then
    (mk false (hw_timeout d) (present d) (responsive d) (settable d) (magic_close d), Ok tt)
  else (d, Ok tt).

Definition sim_keepalive (d : t) : t * res unit :=
  if negb (fd d) then (d, Raise closed_error)
  else if responsive d then (d, Ok tt)
  else (d, Raise "Could not send watchdog keepalive").

Definition sim_set_timeout (d : t) (timeout : Z) : t * res unit :=
  if negb (fd d) then (d, Raise closed_error)
  else if negb (settable d) then (d, Raise (not_supported "SimDevice"))
  else if bool_decide (0 < timeout < 65535) then
    (mk (fd d) timeout (present d) (responsive d) (settable d) (magic_close d), Ok tt)
  else (d, Raise "Invalid timeout").

#[global] Instance class : WatchdogBase t := {|
  is_running d := fd d;
  is_healthy d := present d;
  can_be_disabled d := if fd d then Ok (magic_close d) else Raise closed_error;
  open := sim_open;
  close := sim_close;
  keepalive := sim_keepalive;
  get_timeout d := if fd d then Ok (hw_timeout d) else Raise closed_error;
  has_set_timeout d := if fd d then Ok (settable d) else Raise closed_error;
  set_timeout := sim_set_timeout;
  describe _ := "SimDevice"
|}.

(** Construction from [driver_config]: the keys [missing], [stuck],
    [fixed] and [nowayout] switch the four characteristics off. *)
Definition from_config (c : gmap string string) : t :=
  mk false 60
     (bool_decide (c !! "missing" = None))
     (bool_decide (c !! "stuck" = None))
     (bool_decide (c !! "fixed" = None))
     (bool_decide (c !! "nowayout" = None)).

End SimDevice.

(** ** Reading the events of a run *)

(** The blocks of [Watchdog.keepalive] that a run entered. *)
Definition entered {Dev} (evs : list (Event Dev)) : list Branch :=
  omap (fun ev => match ev with Enter b => Some b | _ => None end) evs.

(** The calls that changed a device during a run. *)
Definition calls {Dev} (evs : list (Event Dev)) : list (Impl Dev * Op) :=
  omap (fun ev => match ev with Call i o => Some (i, o) | _ => None end) evs.

(** The life cycle of devices during a run: constructions, [open]s and
    [close]s. *)
Definition lifecycle {Dev} (evs : list (Event Dev)) : list (Event Dev) :=
  omap (fun ev =>
          match ev with
          | Call _ OpOpen | Call _ OpClose | GetImpl _ => Some ev
          | _ => None
          end) evs.

(** The devices on which [close] was called during a run. *)
Definition closes {Dev} (evs : list (Event Dev)) : list (Impl Dev) :=
  omap (fun ev => match ev with Call i OpClose => Some i | _ => None end) evs.

(** ** Properties of computations *)

(** A computation that returns: no exception leaves it. *)
Definition returns {Dev A} (x : M Dev A) : Prop :=
  forall w, exists a, outcome (x w) = Ok a.

(** The manager's settings: everything but the device. *)
Definition same_settings {Dev} (w w' : Watchdog Dev) : Prop :=
  config w' = config w /\ active_config w' = active_config w /\ active w' = active w.

(** The settings after [_activate]: [active_config] is [config]. *)
Definition activated {Dev} (w w' : Watchdog Dev) : Prop :=
  config w' = config w /\ active_config w' = config w /\ active w' = active w.

(** [run_rel R P x]: whatever the state [w] in which [x] starts and however
    it ends, it leaves a state related to [w] by [R] and all its events
    satisfy [P]. *)
Definition run_rel {Dev A} (R : Watchdog Dev -> Watchdog Dev -> Prop)
    (P : Event Dev -> Prop) (x : M Dev A) : Prop :=
  forall w, R w (final (x w)) /\ Forall P (events (x w)).

(** [keeps P x]: [x] changes nothing of the manager but its device. *)
Definition keeps {Dev A} (P : Event Dev -> Prop) (x : M Dev A) : Prop :=
  run_rel same_settings P x.

Definition not_enter {Dev} (ev : Event Dev) : Prop :=
  match ev with Enter _ => False | _ => True end.

Definition is_log {Dev} (ev : Event Dev) : Prop :=
  match ev with Log _ _ => True | _ => False end.


(** What the [except] clause of [_disable] logs when [close] ended as [r]. *)
Definition close_error_log {Dev} (r : res unit) : list (Event Dev) :=
  match r with Ok _ => [] | Raise e => [Log ERROR (MsgDisableError e)] end.

(** The disable sequence applied to a device in state [i] reaches [close],
    which it calls on the device in state [i']: either the device is not
    running or can be disabled, and is closed as it is; or it runs and cannot
    be disabled, and neither the final keepalive nor the reading of the
    timeout for the log message raises. *)
Definition closed_as {Dev} `{WatchdogBase Dev} (i i' : Impl Dev) : Prop :=
  (is_running i = false \/ can_be_disabled i = Ok true) /\ i' = i \/
  is_running i = true /\ can_be_disabled i = Ok false /\
  snd (keepalive i) = Ok tt /\ i' = fst (keepalive i) /\
  exists t, get_timeout i' = Ok t.

(** ** Concrete managers

    A Linux host on which both device constructors build a simulated
    device. *)

Module Scenario.

Definition __init__ :=
  Watchdog.__init__ "Linux" SimDevice.from_config SimDevice.from_config.

Definition reload_config :=
  Watchdog.reload_config "Linux" SimDevice.from_config SimDevice.from_config.

Definition keepalive :=
  Watchdog.keepalive "Linux" SimDevice.from_config SimDevice.from_config.

(** [{'ttl': 30, 'loop_wait': 10, 'watchdog': {'mode': m, **extra}}]. *)
Definition cfg (m : Mode) (ttl : Z) (driver : string) (extra : gmap string string)
  : WatchdogConfig :=
  mkWatchdogConfig m ttl 10 5 driver extra.

(** The manager that [__init__] builds from [c] when it returns. *)
Definition built (c : WatchdogConfig) : Watchdog SimDevice.t :=
  match fst (__init__ c) with
  | Watchdog.Constructed w => w
  | Watchdog.SystemExit _ => mkWatchdog c c false Null
  end.

(** The manager after [__init__] and [activate()]. *)
Definition activated_from (c : WatchdogConfig) : Watchdog SimDevice.t :=
  final (Watchdog.activate (built c)).

(** A device whose node is missing: [open] raises. *)
Definition missing : gmap string string := {[ "missing" := "1" ]}.



(** An ordinary device as constructed, and as opened by [_activate] for
    [ttl = 30]. *)
Definition fresh : Impl SimDevice.t := Platform (SimDevice.from_config ∅).

Definition running : Impl SimDevice.t :=
  Platform (SimDevice.mk true 25 true true true true).


Definition stuck : Impl SimDevice.t :=
  Platform (SimDevice.mk true 25 true false true true).

End Scenario.

(** ** [parse_mode]

    Strings are byte strings and [str.lower] is taken on the letters A to
    Z.  For a string with other characters Python's [lower] may give another
    string, but never one of the seven words that [parse_mode] looks for
    (the lowered form keeps a character outside ASCII, or gains a letter k,
    which none of the words has): the mode found and whether the warning is
    logged are the same. *)






(** ** Conditions on the manager *)

(** A manager whose configured mode is Off owns the null device and has
    nothing left to apply. *)
Definition off_means_null {Dev} (w : Watchdog Dev) : Prop :=
  mode (config w) = MODE_OFF -> impl w = Null /\ active_config w = config w.

(** The calls that the disable sequence can make on a device in state [i]. *)
Definition disable_calls {Dev} `{WatchdogBase Dev} (i : Impl Dev)
    (l : list (Impl Dev * Op)) : Prop :=
  l = [] \/ l = [(i, OpClose)] \/ l = [(i, OpKeepalive)] \/
  l = [(i, OpKeepalive); (fst (keepalive i), OpClose)].

(** [frames x]: [x] changes neither [config] nor [active]. *)
Definition frame {Dev} (w w' : Watchdog Dev) : Prop :=
  config w' = config w /\ active w' = active w.

Definition frames {Dev A} (x : M Dev A) : Prop :=
  run_rel frame (fun _ => True) x.

(** [reads x]: [x] changes nothing of the manager, not even the device. *)
Definition reads {Dev A} (x : M Dev A) : Prop :=
  run_rel (fun w w' => w' = w) (fun _ => True) x.

(** ** The public methods as transitions of the manager *)

Inductive Method :=
  | CallActivate
  | CallDisable
  | CallKeepalive
  | CallReloadConfig (c : WatchdogConfig).

Section Calls.
Context {Dev : Type} `{WatchdogBase Dev}.
Variable platform_system : string.
Variables TestingWatchdogDevice_from_config LinuxWatchdogDevice_from_config :
  gmap string string -> Dev.

(** The manager and the events that a call of a public method leaves,
    whether the call returns or raises. *)
Definition invoke (m : Method) (w : Watchdog Dev) : Watchdog Dev * list (Event Dev) :=
  match m with
  | CallActivate => (final (Watchdog.activate w), events (Watchdog.activate w))
  | CallDisable => (final (Watchdog.disable w), events (Watchdog.disable w))
  | CallKeepalive =>
      let r := Watchdog.keepalive platform_system TestingWatchdogDevice_from_config
                 LinuxWatchdogDevice_from_config w in
      (final r, events r)
  | CallReloadConfig c =>
      let r := Watchdog.reload_config platform_system TestingWatchdogDevice_from_config
                 LinuxWatchdogDevice_from_config c w in
      (final r, events r)
  end.

(** A sequence of calls, oldest first. *)
Definition run_calls (ms : list Method) (w : Watchdog Dev) : Watchdog Dev :=
  fold_left (fun w m => fst (invoke m w)) ms w.

End Calls.

(** Every call went to the null device. *)
Definition only_null {Dev} (l : list (Impl Dev * Op)) : Prop :=
  Forall (fun '(i, _) => i = Null) l.

(** What [_activate] logs first when the timing slack is negative. *)
Definition slack_log {Dev} (c : WatchdogConfig) : list (Event Dev) :=
  if bool_decide (timing_slack c < 0)
  then [Log WARNING (MsgNotSupported (ttl c) (loop_wait c))] else [].

(** The snapshot given by the last [reload_config] of a sequence of calls,
    and the flag given by its last [activate] or [disable]. *)
Definition last_config (ms : list Method) (c : WatchdogConfig) : WatchdogConfig :=
  fold_left (fun c m => match m with CallReloadConfig c' => c' | _ => c end) ms c.

Definition last_active (ms : list Method) (a : bool) : bool :=
  fold_left (fun a m =>
               match m with
               | CallActivate => true
               | CallDisable => false
               | _ => a
               end) ms a.

(** What [_set_timeout] and the [try] statement of [_activate] guarantee
    about the value they give for [actual_timeout]: [None] comes with the
    null device; a number is the timeout that the owned device reports, and
    is not shorter than [loop_wait] on a running device unless that device
    cannot be disabled. *)
Definition safe_timeout {Dev} `{WatchdogBase Dev} (w : Watchdog Dev)
    (actual_timeout : option Z) : Prop :=
  match actual_timeout with
  | None => impl w = Null
  | Some t =>
      get_timeout (impl w) = Ok t /\
      (is_running (impl w) = true ->
       loop_wait (config w) <= t \/ can_be_disabled (impl w) = Ok false)
  end.

(** * Properties *)

(** ** Runs of the monad *)

Section Runs.
Context {Dev : Type}.
Implicit Types w : Watchdog Dev.
Implicit Types P : Event Dev -> Prop.

Lemma after_nil {A} (r : Run Dev A) : after [] r = r.
Proof. by destruct r. Qed.

Lemma bind_ok {A B} (x : M Dev A) (f : A -> M Dev B) w a :
  outcome (x w) = Ok a ->
  bind x f w = after (events (x w)) (f a (final (x w))).
Proof. intros Hx. unfold bind. by rewrite Hx. Qed.

Lemma bind_raise {A B} (x : M Dev A) (f : A -> M Dev B) w e :
  outcome (x w) = Raise e ->
  bind x f w = mkRun (Raise e) (final (x w)) (events (x w)).
Proof. intros Hx. unfold bind. by rewrite Hx. Qed.

Lemma bind_step {A B} (x : M Dev A) (f : A -> M Dev B) w a w' :
  x w = mkRun (Ok a) w' [] -> bind x f w = f a w'.
Proof. intros Hx. unfold bind. rewrite Hx. apply after_nil. Qed.

Lemma bind_self {B} (f : Watchdog Dev -> M Dev B) w : bind self f w = f w w.
Proof. by apply bind_step. Qed.

Lemma bind_ret {A B} (a : A) (f : A -> M Dev B) w : bind (ret a) f w = f a w.
Proof. by apply bind_step. Qed.

Lemma bind_emit {B} ev (f : unit -> M Dev B) w :
  bind (emit ev) f w = after [ev] (f tt w).
Proof. done. Qed.

Lemma bind_logger {B} l m (f : unit -> M Dev B) w :
  bind (logger l m) f w = after [Log l m] (f tt w).
Proof. done. Qed.

Lemma bind_set_impl {B} i (f : unit -> M Dev B) w :
  bind (set_impl i) f w = f tt (mkWatchdog (config w) (active_config w) (active w) i).
Proof. by apply bind_step. Qed.

Lemma bind_set_active_config {B} c (f : unit -> M Dev B) w :
  bind (set_active_config c) f w = f tt (mkWatchdog (config w) c (active w) (impl w)).
Proof. by apply bind_step. Qed.

Lemma bind_read {A B} (m : Impl Dev -> res A) (f : A -> M Dev B) w :
  bind (read m) f w =
  match m (impl w) with Ok a => f a w | Raise e => mkRun (Raise e) w [] end.
Proof.
  unfold bind, read. cbn [outcome final events].
  destruct (m (impl w)); [apply after_nil | done].
Qed.

Lemma bind_call {B} o (m : Impl Dev -> Impl Dev * res unit) (f : unit -> M Dev B) w :
  bind (call o m) f w =
  match snd (m (impl w)) with
  | Ok _ =>
      after [Call (impl w) o]
            (f tt (mkWatchdog (config w) (active_config w) (active w) (fst (m (impl w)))))
  | Raise e =>
      mkRun (Raise e)
            (mkWatchdog (config w) (active_config w) (active w) (fst (m (impl w))))
            [Call (impl w) o]
  end.
Proof.
  unfold bind, call. cbn [outcome final events].
  by destruct (snd (m (impl w))) as [[]|e].
Qed.

Lemma final_bind_returned {A B} (x : M Dev A) (f : A -> M Dev B) w b :
  outcome (bind x f w) = Ok b ->
  exists a, outcome (x w) = Ok a /\
            final (bind x f w) = final (f a (final (x w))) /\
            outcome (f a (final (x w))) = Ok b.
Proof. unfold bind. destruct (outcome (x w)) as [a|e]; [by exists a | done]. Qed.

Lemma bind_run {A B} (x : M Dev A) (f : A -> M Dev B) w a w' l :
  x w = mkRun (Ok a) w' l -> bind x f w = after l (f a w').
Proof. intros Hx. unfold bind. by rewrite Hx. Qed.

Lemma bind_set_config {B} c (f : unit -> M Dev B) w :
  bind (set_config c) f w = f tt (mkWatchdog c (active_config w) (active w) (impl w)).
Proof. by apply bind_step. Qed.

Lemma events_bind {A B} (x : M Dev A) (f : A -> M Dev B) w :
  events (bind x f w) =
  events (x w) ++
  match outcome (x w) with Ok a => events (f a (final (x w))) | Raise _ => [] end.
Proof. unfold bind. destruct (outcome (x w)); [done | by rewrite app_nil_r]. Qed.

Lemma events_try_except {A} (x : M Dev A) h w :
  events (try_except x h w) =
  events (x w) ++
  match outcome (x w) with Ok _ => [] | Raise e => events (h e (final (x w))) end.
Proof. unfold try_except. destruct (outcome (x w)); [by rewrite app_nil_r | done]. Qed.

Lemma try_except_ok {A} (x : M Dev A) h w a :
  outcome (x w) = Ok a -> try_except x h w = x w.
Proof. intros Hx. unfold try_except. by rewrite Hx. Qed.

Lemma try_except_raise {A} (x : M Dev A) h w e :
  outcome (x w) = Raise e ->
  try_except x h w = after (events (x w)) (h e (final (x w))).
Proof. intros Hx. unfold try_except. by rewrite Hx. Qed.

(** *** Computations that return *)

Lemma returns_bind {A B} (x : M Dev A) (f : A -> M Dev B) :
  returns x -> (forall a, returns (f a)) -> returns (bind x f).
Proof.
  intros Hx Hf w. destruct (Hx w) as [a Ha].
  destruct (Hf a (final (x w))) as [b Hb]. exists b.
  by rewrite (bind_ok _ _ _ a Ha).
Qed.

Lemma try_except_returns {A} (x : M Dev A) h :
  (forall e, returns (h e)) -> returns (try_except x h).
Proof.
  intros Hh w. destruct (outcome (x w)) as [a|e] eqn:Hx.
  - exists a. by rewrite (try_except_ok _ _ _ a).
  - destruct (Hh e (final (x w))) as [a Ha]. exists a.
    by rewrite (try_except_raise _ _ _ e).
Qed.

(** *** What a computation leaves unchanged *)

Lemma same_settings_trans w1 w2 w3 :
  same_settings w1 w2 -> same_settings w2 w3 -> same_settings w1 w3.
Proof. unfold same_settings. intros (?&?&?) (?&?&?). split_and!; congruence. Qed.

Lemma same_settings_activated w1 w2 w3 :
  same_settings w1 w2 -> activated w2 w3 -> activated w1 w3.
Proof. unfold same_settings, activated. intros (?&?&?) (?&?&?). split_and!; congruence. Qed.

Lemma activated_same_settings w1 w2 w3 :
  activated w1 w2 -> same_settings w2 w3 -> activated w1 w3.
Proof. unfold same_settings, activated. intros (?&?&?) (?&?&?). split_and!; congruence. Qed.

Lemma run_rel_bind {A B} (R1 R2 R3 : Watchdog Dev -> Watchdog Dev -> Prop) P
    (x : M Dev A) (f : A -> M Dev B) :
  run_rel R1 P x -> (forall a, run_rel R2 P (f a)) ->
  (forall w1 w2, R1 w1 w2 -> R3 w1 w2) ->
  (forall w1 w2 w3, R1 w1 w2 -> R2 w2 w3 -> R3 w1 w3) ->
  run_rel R3 P (bind x f).
Proof.
  intros Hx Hf Hsub Hcomp w. destruct (Hx w) as [Hs He].
  destruct (outcome (x w)) as [a|e] eqn:Ho.
  - rewrite (bind_ok _ _ _ a Ho). cbn [after final events].
    destruct (Hf a (final (x w))) as [Hs' He'].
    split; [by eapply Hcomp | by apply Forall_app].
  - rewrite (bind_raise _ _ _ e Ho). split; [by apply Hsub | done].
Qed.

Lemma run_rel_bind_returns {A B} (R1 R2 R3 : Watchdog Dev -> Watchdog Dev -> Prop) P
    (x : M Dev A) (f : A -> M Dev B) :
  returns x -> run_rel R1 P x -> (forall a, run_rel R2 P (f a)) ->
  (forall w1 w2 w3, R1 w1 w2 -> R2 w2 w3 -> R3 w1 w3) ->
  run_rel R3 P (bind x f).
Proof.
  intros Hr Hx Hf Hcomp w. destruct (Hx w) as [Hs He].
  destruct (Hr w) as [a Ho].
  rewrite (bind_ok _ _ _ a Ho). cbn [after final events].
  destruct (Hf a (final (x w))) as [Hs' He'].
  split; [by eapply Hcomp | by apply Forall_app].
Qed.

Lemma run_rel_weaken {A} (P Q : Event Dev -> Prop) R (x : M Dev A) :
  (forall ev, P ev -> Q ev) -> run_rel R P x -> run_rel R Q x.
Proof.
  intros HPQ Hx w. destruct (Hx w) as [? He]. split; [done |].
  eapply Forall_impl; [exact He | exact HPQ].
Qed.

Lemma keeps_ret {A} P (a : A) : keeps P (ret a).
Proof. intros w. split; [done | constructor]. Qed.

Lemma keeps_self P : keeps P self.
Proof. intros w. split; [done | constructor]. Qed.

Lemma keeps_emit P ev : P ev -> keeps P (emit ev).
Proof. intros Hev w. split; [done | by repeat constructor]. Qed.

Lemma keeps_logger P l m : P (Log l m) -> keeps P (logger l m).
Proof. apply keeps_emit. Qed.

Lemma keeps_set_impl P i : keeps P (set_impl i).
Proof. intros w. split; [done | constructor]. Qed.

Lemma keeps_read {A} P (m : Impl Dev -> res A) : keeps P (read m).
Proof. intros w. split; [done | constructor]. Qed.

Lemma keeps_call P o m : (forall i, P (Call i o)) -> keeps P (call o m).
Proof. intros Ho w. split; [done | by repeat constructor]. Qed.

Lemma keeps_bind {A B} P (x : M Dev A) (f : A -> M Dev B) :
  keeps P x -> (forall a, keeps P (f a)) -> keeps P (bind x f).
Proof.
  intros Hx Hf. eapply run_rel_bind; [exact Hx | exact Hf | done |].
  apply same_settings_trans.
Qed.

Lemma keeps_try_except {A} P (x : M Dev A) h :
  keeps P x -> (forall e, keeps P (h e)) -> keeps P (try_except x h).
Proof.
  intros Hx Hh w. destruct (Hx w) as [Hs He].
  destruct (outcome (x w)) as [a|e] eqn:Ho.
  - by rewrite (try_except_ok _ _ _ a Ho).
  - rewrite (try_except_raise _ _ _ e Ho). cbn [after final events].
    destruct (Hh e (final (x w))) as [Hs' He'].
    split; [by eapply same_settings_trans | by apply Forall_app].
Qed.

(** *** The blocks entered during a run *)

Lemma entered_not_enter (l : list (Event Dev)) : Forall not_enter l -> entered l = [].
Proof.
  induction 1 as [|ev l Hev _ IH]; [done |].
  destruct ev; cbn in *; done.
Qed.

Lemma entered_enter b (l : list (Event Dev)) :
  Forall not_enter l -> entered (Enter b :: l) = [b].
Proof.
  intros Hl. change (entered (Enter b :: l)) with (b :: entered l).
  by rewrite entered_not_enter.
Qed.

Lemma entered_bind {A B} (x : M Dev A) (f : A -> M Dev B) w :
  entered (events (bind x f w)) =
  entered (events (x w)) ++
  match outcome (x w) with
  | Ok a => entered (events (f a (final (x w))))
  | Raise _ => []
  end.
Proof.
  unfold bind, entered. destruct (outcome (x w)); cbn [after events].
  - apply omap_app.
  - by rewrite app_nil_r.
Qed.

Lemma entered_try_except {A} (x : M Dev A) h w :
  (forall e, keeps not_enter (h e)) ->
  entered (events (try_except x h w)) = entered (events (x w)).
Proof.
  intros Hh. unfold try_except. destruct (outcome (x w)) as [a|e]; [done |].
  cbn [after events]. unfold entered. rewrite omap_app.
  destruct (Hh e (final (x w))) as [_ He].
  apply entered_not_enter in He. unfold entered in He. by rewrite He, app_nil_r.
Qed.

Lemma is_log_not_enter (ev : Event Dev) : is_log ev -> not_enter ev.
Proof. by destruct ev. Qed.

(** A block that marks its entry and then leaves [active_config] equal to
    [config]. *)
Lemma entered_block b (k : M Dev unit) w :
  run_rel activated not_enter k ->
  let r := bind (emit (Enter b)) (fun _ => k) w in
  entered (events r) = [b] /\ active_config (final r) = config (final r).
Proof.
  intros Hk r. subst r. rewrite bind_emit. cbn [after events final].
  destruct (Hk w) as [(Hc & Hac & _) He].
  split; [by apply entered_enter | congruence].
Qed.

Lemma entered_block_keeps b (k : M Dev unit) w :
  keeps not_enter k -> entered (events (bind (emit (Enter b)) (fun _ => k) w)) = [b].
Proof.
  intros Hk. rewrite bind_emit. cbn [after events].
  destruct (Hk w) as [_ He]. by apply entered_enter.
Qed.

End Runs.

Ltac keeps_step :=
  lazymatch goal with
  | |- keeps _ (bind _ _) => apply keeps_bind; [| intros ?]
  | |- keeps _ (try_except _ _) => apply keeps_try_except; [| intros ?]
  | |- keeps _ (ret _) => apply keeps_ret
  | |- keeps _ self => apply keeps_self
  | |- keeps _ (set_impl _) => apply keeps_set_impl
  | |- keeps _ (read _) => apply keeps_read
  | |- keeps _ (logger _ _) => apply keeps_logger
  | |- keeps _ (emit _) => apply keeps_emit
  | |- keeps _ (call _ _) => apply keeps_call; intros ?
  | |- keeps _ (if ?b then _ else _) => destruct b
  end.

(** ** The manager *)

Section Manager.
Context {Dev : Type} `{WatchdogBase Dev}.
Variable platform_system : string.
Variables TestingWatchdogDevice_from_config LinuxWatchdogDevice_from_config :
  gmap string string -> Dev.
Implicit Types w : Watchdog Dev.

Abbreviation get_impl :=
  (Watchdog.get_impl platform_system TestingWatchdogDevice_from_config
     LinuxWatchdogDevice_from_config).
Abbreviation impl_from_config :=
  (Watchdog.impl_from_config platform_system TestingWatchdogDevice_from_config
     LinuxWatchdogDevice_from_config).
Abbreviation __init__ :=
  (Watchdog.__init__ platform_system TestingWatchdogDevice_from_config
     LinuxWatchdogDevice_from_config).
Abbreviation reload_config :=
  (Watchdog.reload_config platform_system TestingWatchdogDevice_from_config
     LinuxWatchdogDevice_from_config).
Abbreviation keepalive_mode :=
  (Watchdog.keepalive_mode platform_system TestingWatchdogDevice_from_config
     LinuxWatchdogDevice_from_config).
Abbreviation keepalive_driver :=
  (Watchdog.keepalive_driver platform_system TestingWatchdogDevice_from_config
     LinuxWatchdogDevice_from_config).
Abbreviation keepalive_timeout := (@Watchdog.keepalive_timeout Dev _).
Abbreviation keepalive_try :=
  (Watchdog.keepalive_try platform_system TestingWatchdogDevice_from_config
     LinuxWatchdogDevice_from_config).
Abbreviation Watchdog_keepalive :=
  (Watchdog.keepalive platform_system TestingWatchdogDevice_from_config
     LinuxWatchdogDevice_from_config).

(** *** Settings kept by the private methods *)

Lemma _set_timeout_keeps : keeps not_enter (@Watchdog._set_timeout Dev _).
Proof. unfold Watchdog._set_timeout. repeat keeps_step; done. Qed.

Lemma _activate_check_keeps actual_timeout :
  keeps is_log (@Watchdog._activate_check Dev _ actual_timeout).
Proof.
  unfold Watchdog._activate_check, Watchdog._activate_report.
  repeat keeps_step; done.
Qed.

Lemma _disable_keeps : keeps not_enter (@Watchdog._disable Dev _).
Proof. unfold Watchdog._disable, Watchdog._disable_try. repeat keeps_step; done. Qed.

Lemma _disable_returns : returns (@Watchdog._disable Dev _).
Proof. apply try_except_returns. intros e w. by exists tt. Qed.

Lemma impl_from_config_run w :
  impl_from_config w =
  mkRun (Ok tt) (mkWatchdog (config w) (active_config w) (active w) (get_impl (config w)))
        [GetImpl (get_impl (config w))].
Proof. done. Qed.

Lemma impl_from_config_keeps : keeps not_enter impl_from_config.
Proof. unfold Watchdog.impl_from_config. repeat keeps_step; done. Qed.

Lemma impl_from_config_returns : returns impl_from_config.
Proof. intros w. by exists tt. Qed.

(** [_activate] records the configuration it activates before anything can
    fail, and changes no other setting. *)
Lemma _activate_arm_activated : run_rel activated not_enter (@Watchdog._activate_arm Dev _).
Proof.
  intros w. unfold Watchdog._activate_arm. rewrite bind_self, bind_set_active_config.
  match goal with |- context [bind ?x ?f ?w1] =>
    assert (keeps not_enter (bind x f)) as Hk end.
  { pose proof _set_timeout_keeps.
    unfold Watchdog._activate_try, Watchdog._activate_except.
    repeat keeps_step; done. }
  destruct (Hk (mkWatchdog (config w) (config w) (active w) (impl w))) as [(?&?&?) ?].
  done.
Qed.

Lemma _activate_activated : run_rel activated not_enter (@Watchdog._activate Dev _).
Proof.
  unfold Watchdog._activate.
  eapply run_rel_bind; [apply _activate_arm_activated | | done | apply activated_same_settings].
  intros at_. eapply run_rel_weaken; [apply is_log_not_enter | apply _activate_check_keeps].
Qed.

(** The part of the first two blocks of [keepalive] that follows the choice
    of the device. *)
Lemma reactivate_activated :
  run_rel activated not_enter
    (bind impl_from_config (fun _ => bind Watchdog._activate (fun _ => ret tt))).
Proof.
  eapply run_rel_bind_returns;
    [apply impl_from_config_returns | apply impl_from_config_keeps |
    | apply same_settings_activated].
  intros _. eapply run_rel_bind;
    [apply _activate_activated | intros _; apply (keeps_ret not_enter) | done
    | apply activated_same_settings].
Qed.

(** *** The three blocks of [keepalive] *)

(** Once [active_config] is [config], none of the three blocks has anything
    to do. *)
Lemma keepalive_mode_reconciled w :
  active_config w = config w -> keepalive_mode w = mkRun (Ok tt) w [].
Proof.
  intros Heq. unfold Watchdog.keepalive_mode. rewrite bind_self, Heq.
  destruct (mode (config w)); done.
Qed.

Lemma keepalive_driver_reconciled w :
  active_config w = config w -> keepalive_driver w = mkRun (Ok tt) w [].
Proof.
  intros Heq. unfold Watchdog.keepalive_driver. rewrite bind_self, Heq.
  rewrite !bool_decide_eq_false_2 by (intros Hne; by apply Hne). done.
Qed.

Lemma keepalive_timeout_reconciled w :
  active_config w = config w -> keepalive_timeout w = mkRun (Ok tt) w [].
Proof.
  intros Heq. unfold Watchdog.keepalive_timeout. rewrite bind_self, Heq.
  rewrite bool_decide_eq_false_2 by (intros Hne; by apply Hne). done.
Qed.

(** A block either has nothing to do, or is entered once and, if it runs
    [_activate], leaves [active_config] equal to [config]. *)
Lemma keepalive_mode_run w :
  keepalive_mode w = mkRun (Ok tt) w [] \/
  entered (events (keepalive_mode w)) = [BranchMode] /\
  active_config (final (keepalive_mode w)) = config (final (keepalive_mode w)).
Proof.
  unfold Watchdog.keepalive_mode. rewrite bind_self.
  destruct (_ && _); [right | by left].
  apply entered_block, reactivate_activated.
Qed.

Lemma keepalive_driver_run w :
  keepalive_driver w = mkRun (Ok tt) w [] \/
  entered (events (keepalive_driver w)) = [BranchDriver] /\
  active_config (final (keepalive_driver w)) = config (final (keepalive_driver w)).
Proof.
  unfold Watchdog.keepalive_driver. rewrite bind_self.
  destruct (_ || _); [right | by left].
  apply entered_block.
  eapply run_rel_bind_returns;
    [apply _disable_returns | apply _disable_keeps | | apply same_settings_activated].
  intros _. apply reactivate_activated.
Qed.

Lemma keepalive_timeout_run w :
  keepalive_timeout w = mkRun (Ok tt) w [] \/
  entered (events (keepalive_timeout w)) = [BranchTimeout].
Proof.
  unfold Watchdog.keepalive_timeout. rewrite bind_self.
  destruct (bool_decide _); [right | by left].
  apply entered_block_keeps. repeat keeps_step; done.
Qed.

Lemma keepalive_tail_reconciled w :
  active_config w = config w ->
  entered (events (bind keepalive_timeout
                     (fun _ => bind self (fun w => set_active_config (config w))) w)) = [].
Proof.
  intros Heq.
  by rewrite (bind_step _ _ _ _ _ (keepalive_timeout_reconciled w Heq)), bind_self.
Qed.

(** C9. In one call of [keepalive()] at most one of the three blocks that
    apply a changed configuration is entered; the reason is that
    [_activate] leaves [active_config] equal to [config] whether it returns
    or raises, after which the conditions of the later blocks are false. *)
Theorem keepalive_enters_at_most_one_block w :
  (length (entered (events (Watchdog_keepalive w))) <= 1)%nat /\
  (let r := Watchdog._activate w in
   active_config (final r) = config (final r) /\
   keepalive_driver (final r) = mkRun (Ok tt) (final r) [] /\
   keepalive_timeout (final r) = mkRun (Ok tt) (final r) []).
Proof.
  split.
  2: { destruct (_activate_activated w) as [(Hc & Hac & _) _].
       assert (active_config (final (Watchdog._activate w))
               = config (final (Watchdog._activate w))) as Heq by congruence.
       split_and!; [done | by apply keepalive_driver_reconciled
                   | by apply keepalive_timeout_reconciled]. }
  unfold Watchdog.keepalive.
  rewrite entered_try_except by (intros e; by apply keeps_logger).
  unfold Watchdog.keepalive_try. rewrite bind_self, entered_bind.
  assert (entered (events ((if active w then call OpKeepalive keepalive else ret tt) w)) = [])
    as ->.
  { apply entered_not_enter. destruct (active w); [by repeat constructor | constructor]. }
  destruct (outcome _) as [[]|e]; [| cbn; lia].
  set (w1 := final _). rewrite bind_self. cbn [app].
  destruct (_ && _); [| cbn; lia].
  destruct (keepalive_mode_run w1) as [Hskip | [Hent Hrec]].
  - rewrite (bind_step _ _ _ _ _ Hskip).
    destruct (keepalive_driver_run w1) as [Hskip' | [Hent Hrec]].
    + rewrite (bind_step _ _ _ _ _ Hskip').
      destruct (keepalive_timeout_run w1) as [Hskip'' | Hent].
      * rewrite (bind_step _ _ _ _ _ Hskip''), bind_self. cbn; lia.
      * rewrite entered_bind, Hent. destruct (outcome _); [| cbn; lia].
        rewrite bind_self. cbn; lia.
    + rewrite entered_bind, Hent. destruct (outcome _); [| cbn; lia].
      rewrite keepalive_tail_reconciled by done. cbn; lia.
  - rewrite entered_bind, Hent. destruct (outcome _); [| cbn; lia].
    rewrite (bind_step _ _ _ _ _ (keepalive_driver_reconciled _ Hrec)).
    rewrite keepalive_tail_reconciled by done. cbn; lia.
Qed.

(** C2. Whatever the manager and whatever the device does, [keepalive()]
    returns: a [WatchdogError] raised anywhere in its body (by the device's
    [keepalive], [set_timeout], [open], [get_timeout], ...) is caught and
    logged at error level.  In particular, when the manager is active and the
    device's [keepalive] raises, the call is followed by the log record and
    nothing else. *)
Theorem keepalive_never_raises w :
  outcome (Watchdog_keepalive w) = Ok tt /\
  (forall e, outcome (keepalive_try w) = Raise e ->
     final (Watchdog_keepalive w) = final (keepalive_try w) /\
     events (Watchdog_keepalive w) =
       events (keepalive_try w) ++ [Log ERROR (MsgKeepaliveError e)]) /\
  (forall e, active w = true -> snd (keepalive (impl w)) = Raise e ->
     events (Watchdog_keepalive w) =
       [Call (impl w) OpKeepalive; Log ERROR (MsgKeepaliveError e)]).
Proof.
  split_and!.
  - unfold Watchdog.keepalive.
    destruct (outcome (keepalive_try w)) as [[]|e] eqn:Ho.
    + by rewrite (try_except_ok _ _ _ tt Ho).
    + by rewrite (try_except_raise _ _ _ e Ho).
  - intros e He. unfold Watchdog.keepalive. by rewrite (try_except_raise _ _ _ e He).
  - intros e Ha He. unfold Watchdog.keepalive.
    assert (outcome (keepalive_try w) = Raise e /\
            events (keepalive_try w) = [Call (impl w) OpKeepalive]) as [Ho Hev].
    { unfold Watchdog.keepalive_try. rewrite bind_self, Ha, bind_call, He. done. }
    rewrite (try_except_raise _ _ _ e Ho). cbn [after events]. by rewrite Hev.
Qed.

(** *** [_activate] *)

Lemma _activate_arm_returns : returns (@Watchdog._activate_arm Dev _).
Proof.
  unfold Watchdog._activate_arm.
  apply returns_bind; [by eexists | intros w0].
  apply returns_bind; [by eexists | intros _].
  apply returns_bind.
  { intros w. destruct (bool_decide _); by eexists. }
  intros _. apply try_except_returns. intros e w. by eexists.
Qed.

(** With a negative timing slack the null device is installed before the
    [try] statement, which then cannot fail. *)
Lemma _activate_arm_negative_slack w :
  timing_slack (config w) < 0 ->
  Watchdog._activate_arm w =
  mkRun (Ok (Some 1000000000)) (mkWatchdog (config w) (config w) (active w) Null)
        [Log WARNING (MsgNotSupported (ttl (config w)) (loop_wait (config w)));
         Call Null OpOpen].
Proof.
  intros Hslack. unfold Watchdog._activate_arm.
  rewrite bind_self, bind_set_active_config.
  rewrite (bool_decide_eq_true_2 _ Hslack). reflexivity.
Qed.





(** C6. When the snapshot being activated has a negative [timing_slack],
    [_activate] logs the warning first, installs the null device and uses no
    platform device: the only call is [open] on the null device, and the null
    device is the one owned afterwards. *)
Theorem negative_slack_forces_null w :
  timing_slack (config w) < 0 ->
  let r := Watchdog._activate w in
  impl (final r) = Null /\
  calls (events r) = [(Null, OpOpen)] /\
  head (events r) =
    Some (Log WARNING (MsgNotSupported (ttl (config w)) (loop_wait (config w)))) /\
  (forall d o, (Platform d, o) ∉ calls (events r)) /\
  outcome r = Ok (negb (bool_decide (mode (config w) = MODE_REQUIRED))) /\
  active_config (final r) = config w.
Proof.
  intros Hslack r. subst r. unfold Watchdog._activate.
  pose proof (_activate_arm_negative_slack w Hslack) as Harm.
  rewrite (bind_ok _ _ w (Some 1000000000)) by (by rewrite Harm).
  rewrite Harm. cbn [outcome final events].
  unfold Watchdog._activate_check, Watchdog._activate_report.
  rewrite bind_self. cbn [impl config].
  change (is_running (@Null Dev)) with false. cbn [negb orb is_null].
  rewrite bind_ret.
  destruct (bool_decide (mode (config w) = MODE_REQUIRED)) eqn:Hm.
  - rewrite bind_logger. cbn.
    split_and!; try done. intros d o Hin.
    apply list_elem_of_singleton in Hin. done.
  - rewrite bind_ret, bind_self. cbn [impl config].
    change (is_running (@Null Dev)) with false. rewrite Hm. cbn.
    split_and!; try done. intros d o Hin.
    apply list_elem_of_singleton in Hin. done.
Qed.

(** *** The disable sequence *)

Lemma _disable_try_closes w :
  is_running (impl w) = false \/ can_be_disabled (impl w) = Ok true ->
  Watchdog._disable_try w = call OpClose close w.
Proof.
  intros Hd. unfold Watchdog._disable_try. rewrite bind_self.
  destruct (is_running (impl w)) eqn:Hrun; [| by rewrite bind_ret].
  destruct Hd as [? | Hd]; [done |].
  rewrite (bind_step _ _ w tt w); [done | by rewrite bind_read, Hd].
Qed.

(** A device that is not running, or that can be disabled, is closed
    directly. *)
Lemma _disable_closes w :
  is_running (impl w) = false \/ can_be_disabled (impl w) = Ok true ->
  events (Watchdog._disable w) =
    Call (impl w) OpClose :: close_error_log (snd (close (impl w))) /\
  final (Watchdog._disable w) =
    mkWatchdog (config w) (active_config w) (active w) (fst (close (impl w))).
Proof.
  intros Hd. unfold Watchdog._disable, try_except.
  rewrite (_disable_try_closes w Hd). cbn [call outcome final events].
  by destruct (snd (close (impl w))).
Qed.


(** It is closed afterwards when neither that keepalive nor the reading of
    its timeout for the log message raises. *)
Lemma _disable_keepalive_close w t :
  is_running (impl w) = true -> can_be_disabled (impl w) = Ok false ->
  let i := fst (keepalive (impl w)) in
  snd (keepalive (impl w)) = Ok tt -> get_timeout i = Ok t ->
  events (Watchdog._disable w) =
    Call (impl w) OpKeepalive :: Log WARNING (MsgWillReboot t)
    :: Call i OpClose :: close_error_log (snd (close i)) /\
  final (Watchdog._disable w) =
    mkWatchdog (config w) (active_config w) (active w) (fst (close i)).
Proof.
  intros Hrun Hcbd i Hk Ht.
  assert (Watchdog._disable_try w =
          after [Call (impl w) OpKeepalive; Log WARNING (MsgWillReboot t)]
                (call OpClose close
                   (mkWatchdog (config w) (active_config w) (active w) i))) as Htry.
  { unfold Watchdog._disable_try. rewrite bind_self, Hrun.
    rewrite (bind_run _ _ w tt (mkWatchdog (config w) (active_config w) (active w) i)
               [Call (impl w) OpKeepalive; Log WARNING (MsgWillReboot t)]); [done |].
    rewrite bind_read, Hcbd, bind_call, Hk, bind_read.
    cbn [impl]. fold i. by rewrite Ht. }
  unfold Watchdog._disable, try_except. rewrite Htry.
  cbn [after call outcome final events impl config active_config active].
  by destruct (snd (close i)).
Qed.


Lemma disable_run w :
  Watchdog.disable w =
  mkRun (Ok tt)
        (mkWatchdog (config w) (active_config w) false (impl (final (Watchdog._disable w))))
        (events (Watchdog._disable w)).
Proof.
  unfold Watchdog.disable. destruct (_disable_returns w) as [[] Ho].
  destruct (_disable_keeps w) as [(Hc & Hac & _) _].
  rewrite (bind_ok _ _ w tt Ho). unfold after, set_active. cbn [outcome final events].
  by rewrite app_nil_r, Hc, Hac.
Qed.



(** *** Constructions, opens and closes *)

Lemma lifecycle_app (l1 l2 : list (Event Dev)) :
  lifecycle (l1 ++ l2) = lifecycle l1 ++ lifecycle l2.
Proof. apply omap_app. Qed.

Lemma lifecycle_logs (l : list (Event Dev)) : Forall is_log l -> lifecycle l = [].
Proof.
  induction 1 as [|ev l Hev _ IH]; [done |].
  destruct ev; cbn in *; done.
Qed.

Lemma lifecycle_close_error_log r : lifecycle (@close_error_log Dev r) = [].
Proof. by destruct r. Qed.

Ltac run_step :=
  first [ rewrite bind_self | rewrite bind_ret | rewrite bind_logger
        | rewrite bind_set_impl | rewrite bind_read | rewrite bind_call
        | case_match ].

(** [_set_timeout] constructs and opens nothing, and closes at most the
    device it was given, when it finds its timeout shorter than [loop_wait]. *)
Lemma _set_timeout_lifecycle w :
  let l := lifecycle (events (Watchdog._set_timeout w)) in
  l = [] \/ l = [Call (impl w) OpClose] \/
  l = [Call (fst (set_timeout (impl w) (timeout (config w)))) OpClose].
Proof.
  unfold Watchdog._set_timeout.
  repeat run_step; cbn; eauto.
Qed.

(** [_activate] opens once: the device it was given, or the null device when
    the timing slack is negative.  The only other event in the life of a
    device is the [close] that [_set_timeout] may apply to the device just
    opened. *)
Lemma _activate_lifecycle w :
  let i := if bool_decide (timing_slack (config w) < 0) then Null else impl w in
  let o := fst (open i) in
  exists rest,
    lifecycle (events (Watchdog._activate w)) = Call i OpOpen :: rest /\
    (rest = [] \/ rest = [Call o OpClose] \/
     rest = [Call (fst (set_timeout o (timeout (config w)))) OpClose]).
Proof.
  intros i o. unfold Watchdog._activate.
  destruct (_activate_arm_returns w) as [actual_timeout Harm].
  rewrite (bind_ok _ _ w actual_timeout Harm). cbn [after events].
  rewrite lifecycle_app.
  rewrite (lifecycle_logs (events (Watchdog._activate_check _ _)))
    by apply _activate_check_keeps.
  rewrite app_nil_r. clear Harm actual_timeout.
  subst o i. destruct (bool_decide (timing_slack (config w) < 0)) eqn:Hslack.
  - apply bool_decide_eq_true_1 in Hslack.
    rewrite (_activate_arm_negative_slack w Hslack). eexists. split; [done | by left].
  - unfold Watchdog._activate_arm.
    rewrite bind_self, bind_set_active_config, Hslack, bind_ret.
    set (w1 := mkWatchdog _ _ _ _).
    rewrite events_try_except, lifecycle_app.
    assert (forall e w', lifecycle (events (Watchdog._activate_except e w')) = [])
      as Hexcept by done.
    replace (lifecycle (match outcome (Watchdog._activate_try w1) with
                        | Ok _ => []
                        | Raise e => events (Watchdog._activate_except e
                                               (final (Watchdog._activate_try w1)))
                        end)) with (@nil (Event Dev))
      by (destruct (outcome _); [done | by rewrite Hexcept]).
    rewrite app_nil_r. unfold Watchdog._activate_try. rewrite bind_call.
    cbn [w1 impl config active_config active].
    destruct (snd (open (impl w))).
    + cbn [after events]. rewrite lifecycle_app.
      match goal with |- context [Watchdog._set_timeout ?w2] =>
        pose proof (_set_timeout_lifecycle w2) as Hst end.
      cbn [impl config] in Hst. cbn [app lifecycle omap].
      eexists. split; [reflexivity | exact Hst].
    + eexists. split; [done | by left].
Qed.

(** *** Changing the driver while active *)

Lemma reload_config_while_active w c :
  active w = true -> mode c <> MODE_OFF ->
  reload_config c w =
  mkRun (Ok tt) (mkWatchdog c (active_config w) true (impl w)) [].
Proof.
  intros Hactive Hmode. unfold Watchdog.reload_config.
  rewrite bind_set_config, bind_self. cbn [config].
  rewrite (bool_decide_eq_false_2 _ Hmode), bind_ret, bind_self.
  cbn [active]. by rewrite Hactive.
Qed.

Lemma keepalive_mode_skip w :
  mode (active_config w) <> MODE_OFF -> keepalive_mode w = mkRun (Ok tt) w [].
Proof.
  intros Hmode. unfold Watchdog.keepalive_mode. rewrite bind_self.
  by rewrite (bool_decide_eq_false_2 (mode (active_config w) = _)), andb_false_r.
Qed.

Lemma closed_as_disable w i2 :
  closed_as (impl w) i2 ->
  lifecycle (events (Watchdog._disable w)) = [Call i2 OpClose] /\
  config (final (Watchdog._disable w)) = config w.
Proof.
  intros [[Hd ->] | (Hrun & Hcbd & Hk & -> & t & Ht)].
  - destruct (_disable_closes w Hd) as [-> ->]. cbn [config].
    split; [| done]. change (?x :: ?l) with ([x] ++ l).
    by rewrite lifecycle_app, lifecycle_close_error_log.
  - destruct (_disable_keepalive_close w t Hrun Hcbd Hk Ht) as [-> ->]. cbn [config].
    split; [| done].
    change (?x :: ?y :: ?z :: ?l) with ([x; y; z] ++ l).
    by rewrite lifecycle_app, lifecycle_close_error_log.
Qed.

(** C3 (amended). When [reload_config] is called while the manager is
    active with a snapshot whose mode is not Off and whose driver or
    driver_config differs from [active_config], it only stores the snapshot:
    the owned device and [active_config] are unchanged and no device is
    touched.  At the next [keepalive()], provided the mode of
    [active_config] is not Off and no call made on the old device before its
    [close] raises (the keepalive of the tick and, in the disable sequence of
    a running device, [can_be_disabled] and -- when it cannot be disabled --
    the final keepalive and the reading of its timeout), the life cycle of
    devices is: one [close] of the old device, then one construction by
    [get_impl], then one [open] -- of the constructed device, or of the null
    device when the new snapshot's timing slack is negative.  Nothing else is
    constructed or opened; the only further [close] possible is that of the
    device just opened, when [_set_timeout] finds its timeout shorter than
    [loop_wait]. *)
Theorem reload_driver_then_keepalive w c :
  active w = true -> mode c <> MODE_OFF ->
  driver c <> driver (active_config w) \/
  driver_config c <> driver_config (active_config w) ->
  let r := reload_config c w in
  (outcome r = Ok tt /\ events r = [] /\ impl (final r) = impl w /\
   active_config (final r) = active_config w /\ config (final r) = c) /\
  (mode (active_config w) <> MODE_OFF ->
   snd (keepalive (impl w)) = Ok tt ->
   forall i2, closed_as (fst (keepalive (impl w))) i2 ->
   let i := if bool_decide (timing_slack c < 0) then Null else get_impl c in
   let o := fst (open i) in
   exists rest,
     lifecycle (events (Watchdog_keepalive (final r))) =
       Call i2 OpClose :: GetImpl (get_impl c) :: Call i OpOpen :: rest /\
     (rest = [] \/ rest = [Call o OpClose] \/
      rest = [Call (fst (set_timeout o (timeout c))) OpClose])).
Proof.
  intros Hactive Hmode Hdriver r. subst r.
  rewrite (reload_config_while_active w c Hactive Hmode).
  split; [done |]. intros Hold Hk i2 Hclose i o. cbn [final].
  set (w1 := mkWatchdog c (active_config w) true (impl w)).
  (* the [except] clause of [keepalive] only logs *)
  unfold Watchdog.keepalive. rewrite events_try_except, lifecycle_app.
  replace (lifecycle (match outcome (keepalive_try w1) with
                      | Ok _ => []
                      | Raise e => events (logger ERROR (MsgKeepaliveError e)
                                             (final (keepalive_try w1)))
                      end)) with (@nil (Event Dev)) by (by destruct (outcome _)).
  rewrite app_nil_r.
  (* the keepalive of the tick, then the first block is skipped *)
  unfold Watchdog.keepalive_try. rewrite bind_self. subst w1. cbn [active impl].
  rewrite bind_call. cbn [impl config active_config active]. rewrite Hk.
  cbn [after events]. rewrite lifecycle_app.
  change (lifecycle [Call (impl w) OpKeepalive]) with (@nil (Event Dev)). cbn [app].
  set (w2 := mkWatchdog _ _ _ _). rewrite bind_self.
  assert (config w2 <> active_config w2) as Hne.
  { cbn. intros ->. by destruct Hdriver. }
  rewrite (bool_decide_eq_true_2 _ Hne). change (active w2) with true. cbn [andb].
  rewrite (bind_step _ _ _ _ _ (keepalive_mode_skip w2 Hold)).
  (* what follows the second block has nothing to do *)
  rewrite events_bind, lifecycle_app.
  assert (forall o0 : res unit,
            lifecycle (match o0 with
                       | Ok _ =>
                           events (bind keepalive_timeout
                                     (fun _ => bind self
                                        (fun w => set_active_config (config w)))
                                     (final (keepalive_driver w2)))
                       | Raise _ => []
                       end) = []) as Htail.
  { intros [[]|e]; [| done].
    destruct (keepalive_driver_run w2) as [Hskip | [_ Hrec]].
    - exfalso. revert Hskip. unfold Watchdog.keepalive_driver. rewrite bind_self.
      assert (bool_decide (driver (config w2) <> driver (active_config w2))
              || bool_decide (driver_config (config w2) <> driver_config (active_config w2))
              = true) as ->.
      { apply orb_true_iff. destruct Hdriver; [left | right]; by apply bool_decide_eq_true_2. }
      rewrite bind_emit. intros Hskip. apply (f_equal events) in Hskip. done.
    - by rewrite (bind_step _ _ _ _ _ (keepalive_timeout_reconciled _ Hrec)), bind_self. }
  rewrite Htail, app_nil_r. clear Htail.
  (* the second block *)
  unfold Watchdog.keepalive_driver. rewrite bind_self.
  assert (bool_decide (driver (config w2) <> driver (active_config w2))
          || bool_decide (driver_config (config w2) <> driver_config (active_config w2))
          = true) as ->.
  { apply orb_true_iff. destruct Hdriver; [left | right]; by apply bool_decide_eq_true_2. }
  rewrite bind_emit. cbn [after events]. rewrite lifecycle_app.
  change (lifecycle [Enter BranchDriver]) with (@nil (Event Dev)). cbn [app].
  destruct (_disable_returns w2) as [[] Hd].
  destruct (closed_as_disable w2 i2 Hclose) as [Hlife Hcfg].
  rewrite (bind_ok _ _ w2 tt Hd). cbn [after events]. rewrite lifecycle_app, Hlife.
  rewrite (bind_run _ _ _ _ _ _ (impl_from_config_run _)).
  cbn [after events]. rewrite lifecycle_app, Hcfg.
  change (config w2) with c.
  change (lifecycle [GetImpl (get_impl c)]) with [GetImpl (get_impl c)].
  set (w3 := mkWatchdog _ _ _ _).
  rewrite events_bind.
  replace (match outcome (Watchdog._activate w3) with
           | Ok a => events (ret () (final (Watchdog._activate w3)))
           | Raise _ => []
           end) with (@nil (Event Dev))
    by (destruct (outcome (Watchdog._activate w3)); reflexivity).
  rewrite app_nil_r.
  destruct (_activate_lifecycle w3) as (rest & -> & Hrest).
  exists rest. split; [done | exact Hrest].
Qed.

(** [activate()] and [_activate] leave [active_config] equal to [config],
    whatever they return and even when they raise. *)
Lemma activate_records_config w :
  active_config (final (Watchdog.activate w)) = config (final (Watchdog.activate w)) /\
  active (final (Watchdog.activate w)) = true.
Proof.
  unfold Watchdog.activate.
  rewrite (bind_step _ _ w tt (mkWatchdog (config w) (active_config w) true (impl w)))
    by reflexivity.
  destruct (_activate_activated (mkWatchdog (config w) (active_config w) true (impl w)))
    as [(Hc & Hac & Ha) _].
  cbn [config active_config active] in Hc, Hac, Ha. split; congruence.
Qed.

(** A [keepalive()] whose [try] body is not left by an exception ends with
    [active_config] equal to [config] when it had changes to apply. *)
Lemma keepalive_reconciles w :
  active w = true -> config w <> active_config w ->
  outcome (keepalive_try w) = Ok tt ->
  active_config (final (Watchdog_keepalive w)) = config (final (Watchdog_keepalive w)).
Proof.
  intros Hactive Hne Hok. unfold Watchdog.keepalive.
  rewrite (try_except_ok _ _ _ tt Hok). revert Hok.
  unfold Watchdog.keepalive_try. rewrite bind_self, Hactive. intros Hok.
  destruct (final_bind_returned _ _ _ _ Hok) as ([] & _ & -> & Hok1). clear Hok.
  revert Hok1. rewrite bind_self. cbn [call final active config active_config].
  rewrite (bool_decide_eq_true_2 _ Hne), Hactive. cbn [andb]. intros Hok.
  destruct (final_bind_returned _ _ _ _ Hok) as ([] & _ & -> & Hok1). clear Hok.
  destruct (final_bind_returned _ _ _ _ Hok1) as ([] & _ & -> & Hok2). clear Hok1.
  destruct (final_bind_returned _ _ _ _ Hok2) as ([] & _ & -> & _). clear Hok2.
  by rewrite bind_self.
Qed.

(** *** Construction *)

(** C10. Constructing the manager from a snapshot whose mode is Required,
    when [get_impl] yields the null device, logs an error and ends the
    process with status 1: the constructor does not return.  With mode Off
    the constructor installs the null device and does not call
    [get_impl]. *)
Theorem init_required_or_off c :
  (mode c = MODE_REQUIRED -> get_impl c = Null ->
   __init__ c = (Watchdog.SystemExit 1, [GetImpl Null; Log ERROR MsgUnsupportedPlatform])) /\
  (mode c = MODE_OFF ->
   __init__ c = (Watchdog.Constructed (mkWatchdog c c false Null), [])).
Proof.
  unfold Watchdog.__init__. split.
  - intros -> ->. done.
  - intros ->. done.
Qed.

(** Where [get_impl] yields the null device. *)
Lemma get_impl_null c :
  driver c <> "testing" ->
  platform_system <> "Linux" \/ driver c <> "default" ->
  get_impl c = Null.
Proof.
  intros Ht Hd. unfold Watchdog.get_impl.
  rewrite (bool_decide_eq_false_2 _ Ht).
  destruct Hd as [Hd | Hd]; rewrite (bool_decide_eq_false_2 _ Hd);
    by rewrite ?andb_false_r.
Qed.

End Manager.

(** ** The configuration snapshot *)

(** C7. The derived timeout is [ttl - safety_margin] unless [safety_margin]
    is the sentinel -1, in which case it is the floor of [ttl / 2]; the
    timing slack is the timeout minus [loop_wait]; both depend on nothing but
    the stored [ttl], [safety_margin] and [loop_wait]. *)
Theorem timeout_and_timing_slack (c : WatchdogConfig) :
  (safety_margin c <> -1 -> timeout c = ttl c - safety_margin c) /\
  (safety_margin c = -1 ->
   timeout c = ttl c `div` 2 /\ 2 * timeout c <= ttl c < 2 * timeout c + 2) /\
  timing_slack c = timeout c - loop_wait c /\
  (forall c', ttl c' = ttl c -> safety_margin c' = safety_margin c ->
              loop_wait c' = loop_wait c ->
              timeout c' = timeout c /\ timing_slack c' = timing_slack c).
Proof.
  unfold timing_slack, timeout. split_and!.
  - intros Hm. by rewrite bool_decide_eq_false_2.
  - intros Hm. rewrite bool_decide_eq_true_2 by done.
    split; [done |]. pose proof (Z.div_mod (ttl c) 2). pose proof (Z.mod_pos_bound (ttl c) 2).
    lia.
  - done.
  - intros c' -> -> ->. done.
Qed.

(** ** The manager on concrete inputs *)

Section Concrete.
Import Scenario.



(** A device whose keepalive fails: the error is logged, nothing raised. *)
Lemma keepalive_never_raises_witness :
  let w := mkWatchdog (cfg MODE_AUTOMATIC 30 "default" ∅)
                      (cfg MODE_AUTOMATIC 30 "default" ∅) true stuck in
  active w = true /\
  snd (WatchdogBase.keepalive (impl w)) = Raise "Could not send watchdog keepalive" /\
  outcome (Scenario.keepalive w) = Ok tt /\
  events (Scenario.keepalive w) =
    [Call stuck OpKeepalive;
     Log ERROR (MsgKeepaliveError "Could not send watchdog keepalive")].
Proof.
  intros w.
  destruct (keepalive_never_raises "Linux" SimDevice.from_config SimDevice.from_config w)
    as (Hout & _ & Hev).
  split; [reflexivity |]. split; [reflexivity |]. split; [exact Hout |].
  exact (Hev _ eq_refl eq_refl).
Defined.

(** C3, as stated, fails.  A manager built with mode Off and activated is
    active and owns the null device.  After [reload_config] with mode
    Automatic and another driver, the next [keepalive()] constructs and opens
    the new device through the first block, which closes nothing: no [close]
    is called at all. *)
Lemma reload_driver_keepalive_without_close :
  let w := activated_from (cfg MODE_OFF 30 "default" ∅) in
  let c := cfg MODE_AUTOMATIC 30 "testing" ∅ in
  let r := Scenario.reload_config c w in
  active w = true /\ mode c <> MODE_OFF /\ driver c <> driver (active_config w) /\
  impl (final r) = impl w /\ active_config (final r) = active_config w /\
  lifecycle (events (Scenario.keepalive (final r))) = [GetImpl fresh; Call fresh OpOpen] /\
  closes (events (Scenario.keepalive (final r))) = [].
Proof.
  intros w c r. split_and!; try (vm_compute; reflexivity).
  - intros Hmode. vm_compute in Hmode. discriminate Hmode.
  - intros Hdriver. vm_compute in Hdriver. discriminate Hdriver.
Qed.

(** Nor does the switch happen at the next [keepalive()] when the keepalive
    of the old device raises: the error is logged and everything else is
    left for a later call. *)
Lemma reload_driver_keepalive_error_postpones :
  let w := mkWatchdog (cfg MODE_AUTOMATIC 30 "default" ∅)
                      (cfg MODE_AUTOMATIC 30 "default" ∅) true stuck in
  let c := cfg MODE_AUTOMATIC 30 "testing" ∅ in
  let r := Scenario.keepalive (final (Scenario.reload_config c w)) in
  lifecycle (events r) = [] /\ impl (final r) = stuck /\
  active_config (final r) = active_config w.
Proof. intros w c r. split_and!; vm_compute; reflexivity. Qed.

(** The same change of driver on a manager whose mode was not Off and whose
    device runs. *)
Lemma reload_driver_then_keepalive_witness :
  let w := mkWatchdog (cfg MODE_AUTOMATIC 30 "default" ∅)
                      (cfg MODE_AUTOMATIC 30 "default" ∅) true running in
  let c := cfg MODE_AUTOMATIC 30 "testing" ∅ in
  active w = true /\ mode c <> MODE_OFF /\ driver c <> driver (active_config w) /\
  mode (active_config w) <> MODE_OFF /\ snd (WatchdogBase.keepalive (impl w)) = Ok tt /\
  closed_as (fst (WatchdogBase.keepalive (impl w))) running /\
  exists rest,
    lifecycle (events (Scenario.keepalive (final (Scenario.reload_config c w)))) =
      Call running OpClose :: GetImpl fresh :: Call fresh OpOpen :: rest.
Proof.
  intros w c.
  assert (mode c <> MODE_OFF) as Hmode by discriminate.
  assert (driver c <> driver (active_config w)) as Hdriver by discriminate.
  assert (mode (active_config w) <> MODE_OFF) as Hold by discriminate.
  assert (closed_as (fst (WatchdogBase.keepalive (impl w))) running) as Hclose.
  { left. split; [right |]; reflexivity. }
  split_and!; try done.
  destruct (reload_driver_then_keepalive "Linux" SimDevice.from_config
              SimDevice.from_config w c eq_refl Hmode (or_introl Hdriver))
    as [_ Hk].
  destruct (Hk Hold eq_refl running Hclose) as (rest & Hlife & _).
  exists rest. exact Hlife.
Defined.


(** C5 fails on this input.  On a host whose watchdog node is missing,
    [activate()] in Automatic mode falls back to the null device and returns
    [True] with [active_config] equal to [config].  After [reload_config]
    with a [ttl] of 60 instead of 30, [keepalive()] enters the third block,
    where [set_timeout] on the null device raises: the error is logged, the
    assignment of [active_config] is skipped, and [keepalive()] returns with
    [active_config] still the old snapshot.  The next [keepalive()], with
    the configuration unchanged, does the same again. *)
Theorem keepalive_failed_set_timeout_stays_pending :
  let c30 := cfg MODE_AUTOMATIC 30 "default" missing in
  let c60 := cfg MODE_AUTOMATIC 60 "default" missing in
  let w := activated_from c30 in
  let r := Scenario.keepalive (final (Scenario.reload_config c60 w)) in
  outcome (Watchdog.activate (built c30)) = Ok true /\
  w = mkWatchdog c30 c30 true Null /\
  outcome r = Ok tt /\
  entered (events r) = [BranchTimeout] /\
  events r =
    [Call Null OpKeepalive; Enter BranchTimeout; Call Null (OpSetTimeout 55);
     Log ERROR (MsgKeepaliveError "Setting timeout is not supported on NullWatchdog")] /\
  final r = mkWatchdog c60 c30 true Null /\
  active_config (final r) <> config (final r) /\
  Scenario.keepalive (final r) = r.
Proof.
  intros c30 c60 w r. split_and!; try (vm_compute; reflexivity).
  intros Heq. vm_compute in Heq. discriminate Heq.
Qed.

(** A [ttl] of 12 with the default margin of 5 and a [loop_wait] of 10. *)
Lemma negative_slack_forces_null_witness :
  let w := mkWatchdog (cfg MODE_REQUIRED 12 "default" ∅)
                      (cfg MODE_REQUIRED 30 "default" ∅) true running in
  timing_slack (config w) < 0 /\
  impl (final (Watchdog._activate w)) = Null /\
  outcome (Watchdog._activate w) = Ok false.
Proof.
  intros w.
  assert (timing_slack (config w) < 0) as Hslack by reflexivity.
  destruct (negative_slack_forces_null w Hslack) as (Himpl & _ & _ & _ & Hout & _).
  split_and!; [exact Hslack | exact Himpl | exact Hout].
Defined.

Lemma timeout_and_timing_slack_witness :
  timeout (cfg MODE_AUTOMATIC 30 "default" ∅) = 25 /\
  timing_slack (cfg MODE_AUTOMATIC 30 "default" ∅) = 15 /\
  timeout (mkWatchdogConfig MODE_AUTOMATIC 31 10 (-1) "default" ∅) = 15.
Proof.
  destruct (timeout_and_timing_slack (cfg MODE_AUTOMATIC 30 "default" ∅))
    as (Hmargin & _ & Hslack & _).
  destruct (timeout_and_timing_slack (mkWatchdogConfig MODE_AUTOMATIC 31 10 (-1) "default" ∅))
    as (_ & Hhalf & _).
  split_and!.
  - apply Hmargin. discriminate.
  - rewrite Hslack, Hmargin by discriminate. reflexivity.
  - destruct (Hhalf eq_refl) as [Heq _]. rewrite Heq. reflexivity.
Defined.



(** On Linux an unknown driver selects the null device. *)
Lemma init_required_or_off_witness :
  Scenario.__init__ (cfg MODE_REQUIRED 30 "unknown" ∅) =
    (Watchdog.SystemExit 1, [GetImpl Null; Log ERROR MsgUnsupportedPlatform]) /\
  Scenario.__init__ (cfg MODE_OFF 30 "default" ∅) =
    (Watchdog.Constructed
       (mkWatchdog (cfg MODE_OFF 30 "default" ∅) (cfg MODE_OFF 30 "default" ∅) false Null),
     []).
Proof.
  split.
  - apply (init_required_or_off "Linux" SimDevice.from_config SimDevice.from_config
             (cfg MODE_REQUIRED 30 "unknown" ∅)); reflexivity.
  - apply (init_required_or_off "Linux" SimDevice.from_config SimDevice.from_config
             (cfg MODE_OFF 30 "default" ∅)); reflexivity.
Defined.

End Concrete.

(** * Further properties *)

(** ** [parse_mode] *)





(** ** The timing slack *)

(** X3. The sign of the timing slack.  With the safety margin -1 the
    slack is negative exactly when [ttl] is less than twice [loop_wait], as
    the warning of [_activate] says; with any other margin it is negative
    exactly when [ttl] is less than [loop_wait] plus the margin, and a
    negative slack with a [ttl] of twice [loop_wait] or more means a margin
    greater than [loop_wait]. *)
Theorem timing_slack_negative c :
  (safety_margin c = -1 -> (timing_slack c < 0 <-> ttl c < 2 * loop_wait c)) /\
  (safety_margin c <> -1 ->
   (timing_slack c < 0 <-> ttl c < loop_wait c + safety_margin c)) /\
  (timing_slack c < 0 -> 2 * loop_wait c <= ttl c -> loop_wait c < safety_margin c).
Proof.
  unfold timing_slack, timeout. split_and!.
  - intros Hm. rewrite (bool_decide_eq_true_2 _ Hm).
    pose proof (Z.div_mod (ttl c) 2 ltac:(lia)).
    pose proof (Z.mod_pos_bound (ttl c) 2 ltac:(lia)). lia.
  - intros Hm. rewrite (bool_decide_eq_false_2 _ Hm). lia.
  - case_bool_decide as Hm.
    + pose proof (Z.div_mod (ttl c) 2 ltac:(lia)).
      pose proof (Z.mod_pos_bound (ttl c) 2 ltac:(lia)). lia.
    + lia.
Qed.

(** ** More on runs *)

Section MoreRuns.
Context {Dev : Type}.
Implicit Types w : Watchdog Dev.

Lemma after_after {A} (l1 l2 : list (Event Dev)) (r : Run Dev A) :
  after l1 (after l2 r) = after (l1 ++ l2) r.
Proof. unfold after. cbn [outcome final events]. by rewrite app_assoc. Qed.

Lemma bind_assoc {A B C} (x : M Dev A) (g : A -> M Dev B) (f : B -> M Dev C) w :
  bind (bind x g) f w = bind x (fun a => bind (g a) f) w.
Proof.
  unfold bind at 1 2 3. destruct (outcome (x w)) as [a|e]; [| done].
  cbn [after outcome final events]. unfold bind.
  destruct (outcome (g a (final (x w)))); [| done].
  by rewrite after_after.
Qed.

Lemma calls_app (l1 l2 : list (Event Dev)) : calls (l1 ++ l2) = calls l1 ++ calls l2.
Proof. apply omap_app. Qed.

Lemma calls_logs (l : list (Event Dev)) : Forall is_log l -> calls l = [].
Proof.
  induction 1 as [|ev l Hev _ IH]; [done |].
  destruct ev; cbn in *; done.
Qed.

Lemma calls_try_except_log (x : M Dev unit) l m w :
  calls (events (try_except x (fun e => logger l (m e)) w)) = calls (events (x w)).
Proof.
  rewrite events_try_except, calls_app.
  destruct (outcome (x w)); by rewrite app_nil_r.
Qed.

Lemma frame_trans w1 w2 w3 : frame w1 w2 -> frame w2 w3 -> frame w1 w3.
Proof. unfold frame. intros [] []. split; congruence. Qed.

Lemma frames_bind {A B} (x : M Dev A) (f : A -> M Dev B) :
  frames x -> (forall a, frames (f a)) -> frames (bind x f).
Proof. intros Hx Hf. eapply run_rel_bind; [exact Hx | exact Hf | done | apply frame_trans]. Qed.

Lemma frames_try_except {A} (x : M Dev A) h :
  frames x -> (forall e, frames (h e)) -> frames (try_except x h).
Proof.
  intros Hx Hh w. destruct (Hx w) as [Hs _].
  destruct (outcome (x w)) as [a|e] eqn:Ho.
  - rewrite (try_except_ok _ _ _ a Ho). split; [done | by apply Forall_true].
  - rewrite (try_except_raise _ _ _ e Ho). cbn [after final events].
    destruct (Hh e (final (x w))) as [Hs' _].
    split; [by eapply frame_trans | by apply Forall_true].
Qed.

Lemma frames_keeps {A} (P : Event Dev -> Prop) (x : M Dev A) : keeps P x -> frames x.
Proof.
  intros Hx w. destruct (Hx w) as [(? & _ & ?) _]. split; [done | by apply Forall_true].
Qed.

Lemma frames_activated {A} (P : Event Dev -> Prop) (x : M Dev A) :
  run_rel activated P x -> frames x.
Proof.
  intros Hx w. destruct (Hx w) as [(? & _ & ?) _]. split; [done | by apply Forall_true].
Qed.

Lemma frames_set_active_config c : frames (@set_active_config Dev c).
Proof. intros w. split; [done | by apply Forall_true]. Qed.

Lemma reads_bind {A B} (x : M Dev A) (f : A -> M Dev B) :
  reads x -> (forall a, reads (f a)) -> reads (bind x f).
Proof.
  intros Hx Hf. eapply run_rel_bind; [exact Hx | exact Hf | done |].
  intros w1 w2 w3 -> ->. done.
Qed.

Lemma reads_ret {A} (a : A) : reads (@ret Dev A a).
Proof. intros w. split; [done | constructor]. Qed.

Lemma reads_self : reads (@self Dev).
Proof. intros w. split; [done | constructor]. Qed.

Lemma reads_logger l m : reads (@logger Dev l m).
Proof. intros w. split; [done | by apply Forall_true]. Qed.

Lemma reads_read {A} (m : Impl Dev -> res A) : reads (read m).
Proof. intros w. split; [done | constructor]. Qed.

End MoreRuns.

Lemma _activate_frames {Dev} `{WatchdogBase Dev} : frames (@Watchdog._activate Dev _).
Proof. eapply frames_activated, _activate_activated. Qed.

Lemma _disable_frames {Dev} `{WatchdogBase Dev} : frames (@Watchdog._disable Dev _).
Proof. eapply frames_keeps, _disable_keeps. Qed.

Ltac frames_step :=
  lazymatch goal with
  | |- frames (bind _ _) => apply frames_bind; [| intros ?]
  | |- frames (try_except _ _) => apply frames_try_except; [| intros ?]
  | |- frames (set_active_config _) => apply frames_set_active_config
  | |- frames (if ?b then _ else _) => destruct b
  | |- frames _ => apply (frames_keeps (fun _ => True)); repeat keeps_step; done
  end.

Ltac reads_step :=
  lazymatch goal with
  | |- reads (bind _ _) => apply reads_bind; [| intros ?]
  | |- reads (ret _) => apply reads_ret
  | |- reads self => apply reads_self
  | |- reads (logger _ _) => apply reads_logger
  | |- reads (read _) => apply reads_read
  | |- reads (if ?b then _ else _) => destruct b
  end.

Ltac run_step :=
  first [ rewrite bind_assoc | rewrite bind_self | rewrite bind_ret | rewrite bind_logger
        | rewrite bind_set_impl | rewrite bind_read | rewrite bind_call
        | case_match ].

(** ** The operations of the manager *)

Section Operations.
Context {Dev : Type} `{WatchdogBase Dev}.
Variable platform_system : string.
Variables TestingWatchdogDevice_from_config LinuxWatchdogDevice_from_config :
  gmap string string -> Dev.
Implicit Types w : Watchdog Dev.

Abbreviation get_impl :=
  (Watchdog.get_impl platform_system TestingWatchdogDevice_from_config
     LinuxWatchdogDevice_from_config).
Abbreviation impl_from_config :=
  (Watchdog.impl_from_config platform_system TestingWatchdogDevice_from_config
     LinuxWatchdogDevice_from_config).
Abbreviation __init__ :=
  (Watchdog.__init__ platform_system TestingWatchdogDevice_from_config
     LinuxWatchdogDevice_from_config).
Abbreviation reload_config :=
  (Watchdog.reload_config platform_system TestingWatchdogDevice_from_config
     LinuxWatchdogDevice_from_config).
Abbreviation keepalive_mode :=
  (Watchdog.keepalive_mode platform_system TestingWatchdogDevice_from_config
     LinuxWatchdogDevice_from_config).
Abbreviation keepalive_driver :=
  (Watchdog.keepalive_driver platform_system TestingWatchdogDevice_from_config
     LinuxWatchdogDevice_from_config).
Abbreviation keepalive_timeout := (@Watchdog.keepalive_timeout Dev _).
Abbreviation keepalive_try :=
  (Watchdog.keepalive_try platform_system TestingWatchdogDevice_from_config
     LinuxWatchdogDevice_from_config).
Abbreviation Watchdog_keepalive :=
  (Watchdog.keepalive platform_system TestingWatchdogDevice_from_config
     LinuxWatchdogDevice_from_config).

(** *** [_disable] and [disable] *)

Lemma _disable_calls w :
  disable_calls (impl w) (calls (events (Watchdog._disable w))).
Proof.
  unfold Watchdog._disable. rewrite calls_try_except_log.
  unfold Watchdog._disable_try, disable_calls.
  repeat run_step; cbn; eauto.
Qed.


(** *** [keepalive] *)

Lemma keepalive_inactive_run w :
  active w = false -> Watchdog_keepalive w = mkRun (Ok tt) w [].
Proof.
  intros Hactive.
  assert (keepalive_try w = mkRun (Ok tt) w []) as Htry.
  { unfold Watchdog.keepalive_try.
    by rewrite bind_self, Hactive, bind_ret, bind_self, Hactive. }
  unfold Watchdog.keepalive. by rewrite (try_except_ok _ _ _ tt), Htry; rewrite ?Htry.
Qed.

(** X5. On an inactive manager [keepalive()] does nothing at all: no call
    on the device, no log record, no change -- even when a changed
    configuration is waiting.  In particular nothing reaches the device
    between [disable()] and the next [activate()]. *)
Theorem keepalive_inactive w :
  (active w = false -> Watchdog_keepalive w = mkRun (Ok tt) w []) /\
  Watchdog_keepalive (final (Watchdog.disable w)) =
    mkRun (Ok tt) (final (Watchdog.disable w)) [].
Proof.
  split; [apply keepalive_inactive_run |].
  apply keepalive_inactive_run. by rewrite disable_run.
Qed.

(** The [try] body on an active manager with nothing to apply. *)
Lemma keepalive_try_steady w :
  active w = true -> config w = active_config w ->
  keepalive_try w =
  mkRun (snd (keepalive (impl w)))
        (mkWatchdog (config w) (active_config w) true (fst (keepalive (impl w))))
        [Call (impl w) OpKeepalive].
Proof.
  intros Hactive Heq.
  unfold Watchdog.keepalive_try. rewrite bind_self, Hactive, bind_call, Hactive.
  destruct (snd (keepalive (impl w))) as [[]|e]; [| done].
  rewrite bind_self. cbn [active config active_config].
  rewrite (bool_decide_eq_false_2 (config w ≠ active_config w))
    by (intros Hne; by apply Hne).
  done.
Qed.

(** X6. On an active manager with nothing to apply ([config] equal to
    [active_config]), [keepalive()] makes exactly one call, the keepalive of
    the owned device, enters none of the three blocks and changes nothing of
    the manager but that device; when the keepalive raises, the only other
    event is the error record. *)
Theorem keepalive_steady w :
  active w = true -> config w = active_config w ->
  let r := Watchdog_keepalive w in
  outcome r = Ok tt /\
  final r = mkWatchdog (config w) (active_config w) true (fst (keepalive (impl w))) /\
  calls (events r) = [(impl w, OpKeepalive)] /\
  entered (events r) = [] /\
  (snd (keepalive (impl w)) = Ok tt -> events r = [Call (impl w) OpKeepalive]).
Proof.
  intros Hactive Heq r. subst r.
  pose proof (keepalive_try_steady w Hactive Heq) as Htry.
  unfold Watchdog.keepalive.
  destruct (snd (keepalive (impl w))) as [[]|e] eqn:Hk.
  - rewrite (try_except_ok _ _ _ tt) by (by rewrite Htry). by rewrite Htry.
  - rewrite (try_except_raise _ _ _ e) by (by rewrite Htry). by rewrite Htry.
Qed.

(** The third block on its own: one [set_timeout] on the owned device, then
    nothing but log records. *)
Lemma keepalive_timeout_changed w :
  timeout (config w) <> timeout (active_config w) ->
  let t := timeout (config w) in
  let w2 := mkWatchdog (config w) (active_config w) (active w)
                       (fst (set_timeout (impl w) t)) in
  exists o l,
    keepalive_timeout w =
      mkRun o w2 (Enter BranchTimeout :: Call (impl w) (OpSetTimeout t) :: l) /\
    Forall is_log l /\
    (snd (set_timeout (impl w) t) = Ok tt ->
     (is_running (impl w2) = true -> exists t', get_timeout (impl w2) = Ok t') ->
     o = Ok tt) /\
    (forall e, snd (set_timeout (impl w) t) = Raise e -> o = Raise e).
Proof.
  intros Hne t w2. unfold Watchdog.keepalive_timeout.
  rewrite bind_self, (bool_decide_eq_true_2 _ Hne), bind_emit, bind_call. fold t.
  destruct (snd (set_timeout (impl w) t)) as [[]|e].
  - rewrite bind_self. fold w2. destruct (is_running (impl w2)) eqn:Hrun.
    + rewrite bind_read. destruct (get_timeout (impl w2)) as [t'|e] eqn:Ht.
      * eexists (Ok tt), [_]. split_and!; [done | by repeat constructor | done | done].
      * eexists (Raise e), []. split_and!; [done | done | | done].
        intros _ Hget. destruct (Hget eq_refl) as [t' Ht']. done.
    + eexists (Ok tt), []. split_and!; done.
  - eexists (Raise e), []. split_and!; [done | done | done |].
    by intros e' [= <-].
Qed.

(** X7. A change of [ttl] or [safety_margin] alone is applied in place.
    When the manager is active, driver and driver_config are unchanged, the
    mode did not go from Off to another one, the computed timeout differs and
    the keepalive of the tick succeeds, [keepalive()] calls [set_timeout]
    with the new timeout on the owned device and makes no other call: nothing
    is closed, constructed or opened.  [active_config] becomes [config] when
    [set_timeout] succeeds (and [get_timeout], read for the log record of a
    running device, answers); when [set_timeout] raises, [active_config]
    keeps the old snapshot and the change stays pending. *)
Theorem keepalive_timeout_in_place w :
  active w = true ->
  driver (config w) = driver (active_config w) ->
  driver_config (config w) = driver_config (active_config w) ->
  mode (config w) = MODE_OFF \/ mode (active_config w) <> MODE_OFF ->
  timeout (config w) <> timeout (active_config w) ->
  snd (keepalive (impl w)) = Ok tt ->
  let t := timeout (config w) in
  let i1 := fst (keepalive (impl w)) in
  let i2 := fst (set_timeout i1 t) in
  let r := Watchdog_keepalive w in
  outcome r = Ok tt /\
  impl (final r) = i2 /\
  calls (events r) = [(impl w, OpKeepalive); (i1, OpSetTimeout t)] /\
  lifecycle (events r) = [] /\
  entered (events r) = [BranchTimeout] /\
  (snd (set_timeout i1 t) = Ok tt ->
   (is_running i2 = true -> exists t', get_timeout i2 = Ok t') ->
   active_config (final r) = config w) /\
  (forall e, snd (set_timeout i1 t) = Raise e ->
     active_config (final r) = active_config w /\
     last (events r) = Some (Log ERROR (MsgKeepaliveError e))).
Proof.
  intros Hactive Hdrv Hdc Hmode Ht Hk t i1 i2 r.
  set (w1 := mkWatchdog (config w) (active_config w) true i1).
  destruct (keepalive_timeout_changed w1 Ht) as (o & l & Htm & Hl & Hok & Hraise).
  cbn [w1 config active_config active impl] in Htm, Hok, Hraise. fold t i2 in Htm, Hok, Hraise.
  set (w2 := mkWatchdog (config w) (active_config w) true i2) in *.
  assert (keepalive_try w =
          after [Call (impl w) OpKeepalive]
                (bind keepalive_timeout
                   (fun _ => bind self (fun w => set_active_config (config w))) w1))
    as Htry.
  { unfold Watchdog.keepalive_try.
    rewrite bind_self, Hactive, bind_call, Hk, Hactive. fold i1 w1. rewrite bind_self.
    assert (config w1 <> active_config w1) as Hne.
    { change (config w <> active_config w). intros Heq. apply Ht. by rewrite Heq. }
    change (active w1) with true. rewrite (bool_decide_eq_true_2 _ Hne). cbn [andb].
    assert (keepalive_mode w1 = mkRun (Ok tt) w1 []) as Hm.
    { unfold Watchdog.keepalive_mode. rewrite bind_self. cbn [w1 config active_config].
      destruct Hmode as [Hoff | Hon].
      - by rewrite (bool_decide_eq_false_2 (mode (config w) ≠ MODE_OFF))
          by (intros Hne'; by apply Hne').
      - by rewrite (bool_decide_eq_false_2 _ Hon), andb_false_r. }
    assert (keepalive_driver w1 = mkRun (Ok tt) w1 []) as Hd.
    { unfold Watchdog.keepalive_driver. rewrite bind_self. cbn [w1 config active_config].
      by rewrite !bool_decide_eq_false_2 by (intros Hne'; by apply Hne'). }
    by rewrite (bind_step _ _ _ _ _ Hm), (bind_step _ _ _ _ _ Hd). }
  subst r. unfold Watchdog.keepalive.
  destruct o as [[]|e].
  - assert (keepalive_try w =
            mkRun (Ok tt) (mkWatchdog (config w) (config w) true i2)
                  (Call (impl w) OpKeepalive :: Enter BranchTimeout
                   :: Call i1 (OpSetTimeout t) :: l)) as Htry'.
    { rewrite Htry, (bind_run _ _ _ _ _ _ Htm), bind_self.
      unfold after, set_active_config. cbn. by rewrite app_nil_r. }
    rewrite (try_except_ok _ _ _ tt) by (by rewrite Htry'). rewrite Htry'.
    cbn [outcome final events impl active_config].
    split_and!; try done.
    + change (calls (?a :: ?b :: ?c :: l)) with ((impl w, OpKeepalive) :: (i1, OpSetTimeout t) :: calls l).
      by rewrite (calls_logs l Hl).
    + change (lifecycle (?a :: ?b :: ?c :: l)) with (lifecycle l).
      by apply lifecycle_logs.
    + change (entered (?a :: ?b :: ?c :: l)) with (BranchTimeout :: entered l).
      rewrite entered_not_enter; [done |].
      eapply Forall_impl; [exact Hl | apply is_log_not_enter].
    + intros e He. by specialize (Hraise e He).
  - assert (keepalive_try w =
            mkRun (Raise e) w2
                  (Call (impl w) OpKeepalive :: Enter BranchTimeout
                   :: Call i1 (OpSetTimeout t) :: l)) as Htry'.
    { rewrite Htry. unfold bind. by rewrite Htm. }
    rewrite (try_except_raise _ _ _ e) by (by rewrite Htry'). rewrite Htry'.
    cbn [after logger emit outcome final events impl active_config w2].
    split_and!; try done.
    + change ((?a :: ?b :: ?c :: l) ++ ?d) with ([a; b; c] ++ (l ++ d)).
      rewrite !calls_app, (calls_logs l Hl). done.
    + change ((?a :: ?b :: ?c :: l) ++ ?d) with ([a; b; c] ++ (l ++ d)).
      rewrite !lifecycle_app, (lifecycle_logs l Hl). done.
    + change ((?a :: ?b :: ?c :: l) ++ ?d) with ([a; b; c] ++ (l ++ d)).
      unfold entered. rewrite !omap_app. fold (entered l).
      rewrite (entered_not_enter l); [done |].
      eapply Forall_impl; [exact Hl | apply is_log_not_enter].
    + intros Hset Hget. by specialize (Hok Hset Hget).
    + intros e' He'. specialize (Hraise e' He'). injection Hraise as <-.
      split; [done |]. apply last_snoc.
Qed.

(** X8. Turning the watchdog on while active.  When the manager is active,
    [active_config] has mode Off, [config] has another mode and the keepalive
    of the tick succeeds, [keepalive()] enters the first block only: it
    constructs a device with [get_impl] and opens it (or opens the null
    device when the timing slack is negative).  The device owned before is
    not closed; the only [close] possible is that of the device just opened,
    when [_set_timeout] finds its timeout shorter than [loop_wait].
    Afterwards [active_config] is [config]. *)
Theorem keepalive_turns_on w :
  active w = true ->
  mode (config w) <> MODE_OFF -> mode (active_config w) = MODE_OFF ->
  snd (keepalive (impl w)) = Ok tt ->
  let r := Watchdog_keepalive w in
  let i := if bool_decide (timing_slack (config w) < 0) then Null
           else get_impl (config w) in
  let o := fst (open i) in
  outcome r = Ok tt /\
  entered (events r) = [BranchMode] /\
  active_config (final r) = config w /\
  exists rest,
    lifecycle (events r) = GetImpl (get_impl (config w)) :: Call i OpOpen :: rest /\
    (rest = [] \/ rest = [Call o OpClose] \/
     rest = [Call (fst (set_timeout o (timeout (config w)))) OpClose]).
Proof.
  intros Hactive Hon Hoff Hk r i o.
  set (w1 := mkWatchdog (config w) (active_config w) true (fst (keepalive (impl w)))).
  set (w3 := mkWatchdog (config w) (active_config w) true (get_impl (config w))).
  set (tail := fun _ : unit =>
         bind keepalive_driver
           (fun _ => bind keepalive_timeout
              (fun _ => bind self (fun w => set_active_config (config w))))).
  (* the first block *)
  assert (keepalive_mode w1 =
          after [Enter BranchMode; GetImpl (get_impl (config w))]
                (bind Watchdog._activate (fun _ => ret tt) w3)) as Hmode.
  { unfold Watchdog.keepalive_mode. rewrite bind_self. cbn [w1 config active_config].
    rewrite (bool_decide_eq_true_2 _ Hon), (bool_decide_eq_true_2 _ Hoff). cbn [andb].
    rewrite bind_emit, (bind_run _ _ _ _ _ _ (impl_from_config_run _ _ _ _)).
    by rewrite after_after. }
  destruct (_activate_activated w3) as [(Hc3 & Hac3 & Ha3) He3].
  cbn [w3 config active] in Hc3, Hac3, Ha3.
  destruct (_activate_lifecycle w3) as (rest & Hlife & Hrest).
  cbn [w3 config impl] in Hlife, Hrest. fold i o in Hlife, Hrest.
  set (ra := Watchdog._activate w3) in *.
  assert (final (keepalive_mode w1) = final ra /\
          events (keepalive_mode w1) =
            Enter BranchMode :: GetImpl (get_impl (config w)) :: events ra /\
          (outcome (keepalive_mode w1) = Ok tt \/
           exists e, outcome (keepalive_mode w1) = Raise e)) as (Hfin & Hev & Hout).
  { rewrite Hmode. destruct (outcome ra) as [b|e] eqn:Hra.
    - rewrite (bind_ok _ _ _ b Hra). cbn. rewrite app_nil_r. eauto.
    - rewrite (bind_raise _ _ _ e Hra). cbn. eauto. }
  (* what follows has nothing to do *)
  assert (forall w', active_config w' = config w' ->
            tail tt w' = mkRun (Ok tt) w' []) as Htail.
  { intros w' Heq. unfold tail.
    rewrite (bind_step _ _ _ _ _ (keepalive_driver_reconciled _ _ _ w' Heq)).
    rewrite (bind_step _ _ _ _ _ (keepalive_timeout_reconciled w' Heq)).
    rewrite bind_self. unfold set_active_config.
    destruct w' as [c' ac' a' i']. cbn in *. by subst ac'. }
  assert (active_config (final ra) = config (final ra)) as Hrec by congruence.
  assert (keepalive_try w =
          after [Call (impl w) OpKeepalive] (bind keepalive_mode tail w1)) as Htry.
  { unfold Watchdog.keepalive_try.
    rewrite bind_self, Hactive, bind_call, Hk, Hactive. fold w1. rewrite bind_self.
    assert (config w1 <> active_config w1) as Hne.
    { change (config w <> active_config w). intros Heq. apply Hon. by rewrite Heq. }
    change (active w1) with true. by rewrite (bool_decide_eq_true_2 _ Hne). }
  assert (final (keepalive_try w) = final ra /\
          events (keepalive_try w) =
            Call (impl w) OpKeepalive :: Enter BranchMode
            :: GetImpl (get_impl (config w)) :: events ra) as [Hfin' Hev'].
  { rewrite Htry. destruct Hout as [Hout | [e Hout]].
    - rewrite (bind_ok _ _ _ tt Hout), Hfin, (Htail _ Hrec), Hev.
      cbn. by rewrite app_nil_r.
    - rewrite (bind_raise _ _ _ e Hout), Hfin, Hev. done. }
  subst r. unfold Watchdog.keepalive.
  assert (Forall not_enter (events ra)) as Hne by exact He3.
  destruct (outcome (keepalive_try w)) as [[]|e] eqn:Houtcome.
  - rewrite (try_except_ok _ _ _ tt Houtcome), Houtcome.
    rewrite Hfin', Hev'. split_and!; [done | | congruence |].
    + change (entered (?a :: ?b :: ?c :: ?l)) with (BranchMode :: entered l).
      by rewrite entered_not_enter.
    + exists rest. split; [| done].
      change (lifecycle (?a :: ?b :: ?c :: ?l)) with (c :: lifecycle l).
      by rewrite Hlife.
  - rewrite (try_except_raise _ _ _ e Houtcome). cbn [after logger emit outcome final events].
    rewrite Hfin', Hev'. split_and!; [done | | congruence |].
    + change ((?a :: ?b :: ?c :: ?l) ++ ?d) with ([a; b; c] ++ (l ++ d)).
      unfold entered. rewrite !omap_app. fold (entered (events ra)).
      by rewrite entered_not_enter.
    + exists rest. split; [| done].
      change ((?a :: ?b :: ?c :: ?l) ++ ?d) with ([a; b; c] ++ (l ++ d)).
      rewrite !lifecycle_app, Hlife. cbn. by rewrite app_nil_r.
Qed.

(** *** The manager without a device *)

Lemma _set_timeout_null w :
  impl w = Null -> Watchdog._set_timeout w = mkRun (Ok (Some 1000000000)) w [].
Proof. destruct w as [c ac a i]. cbn [impl]. intros ->. reflexivity. Qed.

Lemma _activate_check_null actual_timeout w :
  impl w = Null ->
  Watchdog._activate_check actual_timeout w =
  mkRun (Ok (negb (bool_decide (mode (config w) = MODE_REQUIRED)))) w
        (if bool_decide (mode (config w) = MODE_REQUIRED)
         then [Log ERROR MsgRequiredNotConfigured] else []).
Proof.
  destruct w as [c ac a i]. cbn [impl config]. intros ->.
  unfold Watchdog._activate_check, Watchdog._activate_report.
  rewrite bind_self. cbn [impl config is_running Impl_class NullWatchdog_class].
  rewrite bind_ret. cbn [negb orb is_null].
  destruct (bool_decide (mode c = MODE_REQUIRED)) eqn:Hm.
  - by rewrite bind_logger.
  - rewrite bind_ret, bind_self. cbn [impl config is_running Impl_class NullWatchdog_class].
    by rewrite Hm.
Qed.

Lemma _activate_null w :
  impl w = Null ->
  Watchdog._activate w =
  mkRun (Ok (negb (bool_decide (mode (config w) = MODE_REQUIRED))))
        (mkWatchdog (config w) (config w) (active w) Null)
        (slack_log (config w) ++ Call Null OpOpen ::
         (if bool_decide (mode (config w) = MODE_REQUIRED)
          then [Log ERROR MsgRequiredNotConfigured] else [])).
Proof.
  intros Hnull. unfold Watchdog._activate.
  set (w2 := mkWatchdog (config w) (config w) (active w) Null).
  assert (Watchdog._activate_arm w =
          mkRun (Ok (Some 1000000000)) w2 (slack_log (config w) ++ [Call Null OpOpen]))
    as Harm.
  { unfold Watchdog._activate_arm, slack_log.
    rewrite bind_self, bind_set_active_config, Hnull.
    destruct (bool_decide (timing_slack (config w) < 0)); reflexivity. }
  rewrite (bind_run _ _ _ _ _ _ Harm), (_activate_check_null _ w2) by done.
  unfold after. cbn [outcome final events w2 config]. by rewrite <- app_assoc.
Qed.

Lemma _disable_null w :
  impl w = Null -> Watchdog._disable w = mkRun (Ok tt) w [Call Null OpClose].
Proof. destruct w as [c ac a i]. cbn [impl]. intros ->. reflexivity. Qed.

Lemma activate_null_run w :
  impl w = Null ->
  final (Watchdog.activate w) = mkWatchdog (config w) (config w) true Null /\
  calls (events (Watchdog.activate w)) = [(Null, OpOpen)].
Proof.
  intros Hnull. unfold Watchdog.activate.
  rewrite (bind_step _ _ w tt (mkWatchdog (config w) (active_config w) true (impl w)))
    by reflexivity.
  rewrite _activate_null by done. cbn [outcome final events config active].
  split; [done |]. rewrite calls_app. unfold slack_log.
  by destruct (bool_decide (timing_slack _ < 0)), (bool_decide (mode _ = _)).
Qed.



(** *** [__init__] and [reload_config] *)

(** X11. [__init__] ends the process, with status 1 and after the error
    record, exactly when the mode is Required and [get_impl] gives the null
    device.  Otherwise it constructs an inactive manager with nothing
    pending, which owns the null device when the mode is Off (without
    calling [get_impl]) and the device of [get_impl] otherwise; it calls no
    method of any device, and a manager constructed in Required mode never
    owns the null device. *)
Theorem init_started c :
  let i := get_impl c in
  let s := __init__ c in
  (fst s = Watchdog.SystemExit 1 <-> mode c = MODE_REQUIRED /\ i = Null) /\
  (forall status, fst s = Watchdog.SystemExit status ->
     status = 1 /\ snd s = [GetImpl i; Log ERROR MsgUnsupportedPlatform]) /\
  (forall w, fst s = Watchdog.Constructed w ->
     w = mkWatchdog c c false (if bool_decide (mode c = MODE_OFF) then Null else i) /\
     snd s = (if bool_decide (mode c = MODE_OFF) then [] else [GetImpl i]) /\
     off_means_null w /\
     (mode c = MODE_REQUIRED -> impl w <> Null)).
Proof.
  intros i s. subst s. unfold Watchdog.__init__. fold i.
  destruct (mode c) eqn:Hm; cbn [bool_decide decide_rel]; destruct i eqn:Hi;
    cbn [is_null andb fst snd]; split_and!; try done.
  all: try (split; [done | by intros []]).
  all: try (intros status [= <-]; done).
  all: try (intros w [= <-]; rewrite ?Hm; split_and!; try done;
            unfold off_means_null; cbn [config impl active_config]; rewrite ?Hm; done).
Qed.

(** [reload_config] on an inactive manager. *)
Lemma reload_config_inactive c w :
  active w = false ->
  let off := bool_decide (mode c = MODE_OFF) in
  let changed :=
    bool_decide (driver c ≠ driver (active_config w))
    || bool_decide (driver_config c ≠ driver_config (active_config w)) in
  reload_config c w =
  mkRun (Ok tt)
        (mkWatchdog c c false
           (if off then Null else if changed then get_impl c else impl w))
        (if negb off && changed then [GetImpl (get_impl c)] else []).
Proof.
  intros Hactive off changed. unfold Watchdog.reload_config.
  rewrite bind_set_config, bind_self. cbn [config active]. fold off.
  rewrite Hactive. destruct off.
  - rewrite bind_assoc, bind_ret, bind_assoc, bind_set_active_config, bind_set_impl, bind_self.
    cbn [active config active_config impl negb].
    rewrite !(bool_decide_eq_false_2 (_ ≠ _)) by (intros Hne; by apply Hne).
    cbn [orb]. rewrite bind_ret. reflexivity.
  - rewrite bind_ret, bind_self. cbn [active config active_config impl negb andb].
    fold changed. destruct changed.
    + rewrite (bind_run _ _ _ _ _ _ (impl_from_config_run _ _ _ _)). reflexivity.
    + rewrite bind_ret. reflexivity.
Qed.

(** [reload_config] with mode Off on an active manager. *)
Lemma reload_config_off_active c w :
  active w = true -> mode c = MODE_OFF ->
  let w1 := mkWatchdog c (active_config w) true (impl w) in
  reload_config c w =
  mkRun (Ok tt) (mkWatchdog c c true Null) (events (Watchdog._disable w1)).
Proof.
  intros Hactive Hoff w1. unfold Watchdog.reload_config.
  rewrite bind_set_config, bind_self. cbn [config active].
  rewrite (bool_decide_eq_true_2 _ Hoff), Hactive. fold w1.
  rewrite bind_assoc.
  destruct (_disable_returns w1) as [[] Hout].
  destruct (_disable_keeps w1) as [(Hc & Hac & Ha) _].
  rewrite (bind_ok _ _ _ tt Hout), bind_assoc, bind_set_active_config, bind_set_impl, bind_self.
  cbn [active config active_config impl]. rewrite Ha. cbn [w1 active negb].
  unfold after, ret. cbn [outcome final events]. by rewrite app_nil_r, Hc.
Qed.

(** X12. [reload_config] never raises, stores the new snapshot in
    [config], leaves the active flag alone, and never opens a device nor
    sets a timeout: its only possible calls are those of the disable
    sequence.  On an inactive manager it calls no device at all and leaves
    nothing pending: [active_config] is the new snapshot, and the device is
    the null device when the mode is Off, a newly constructed one when
    driver or driver_config changed, and the one owned before otherwise. *)
Theorem reload_config_cases c w :
  let r := reload_config c w in
  let off := bool_decide (mode c = MODE_OFF) in
  let changed :=
    bool_decide (driver c ≠ driver (active_config w))
    || bool_decide (driver_config c ≠ driver_config (active_config w)) in
  outcome r = Ok tt /\
  config (final r) = c /\
  active (final r) = active w /\
  disable_calls (impl w) (calls (events r)) /\
  off_means_null (final r) /\
  (active w = false ->
   final r = mkWatchdog c c false
               (if off then Null else if changed then get_impl c else impl w) /\
   events r = if negb off && changed then [GetImpl (get_impl c)] else []).
Proof.
  intros r off changed. subst r.
  destruct (active w) eqn:Hactive.
  - destruct (decide (mode c = MODE_OFF)) as [Hoff | Hon].
    + rewrite (reload_config_off_active c w Hactive Hoff).
      cbn [outcome final events config active].
      split_and!; try done.
      apply (_disable_calls (mkWatchdog c (active_config w) true (impl w))).
    + rewrite (reload_config_while_active _ _ _ w c Hactive Hon).
      cbn [outcome final events config active].
      split_and!; try done.
      all: first [by left | intros Hoff; by cbn [config] in Hoff].
  - rewrite (reload_config_inactive c w Hactive). fold off changed.
    cbn [outcome final events config active].
    split_and!; try done.
    + destruct (negb off && changed); by left.
    + unfold off_means_null. cbn [config impl active_config]. intros Hoff.
      subst off. by rewrite (bool_decide_eq_true_2 _ Hoff).
Qed.

(** *** What the calls change *)

Lemma keepalive_frames : frames Watchdog_keepalive.
Proof.
  unfold Watchdog.keepalive, Watchdog.keepalive_try, Watchdog.keepalive_mode,
    Watchdog.keepalive_driver, Watchdog.keepalive_timeout, Watchdog.impl_from_config.
  repeat first [apply _activate_frames | apply _disable_frames | frames_step].
Qed.

Lemma activate_frames w :
  config (final (Watchdog.activate w)) = config w /\
  active_config (final (Watchdog.activate w)) = config w /\
  active (final (Watchdog.activate w)) = true.
Proof.
  unfold Watchdog.activate.
  rewrite (bind_step _ _ w tt (mkWatchdog (config w) (active_config w) true (impl w)))
    by reflexivity.
  by destruct (_activate_activated (mkWatchdog (config w) (active_config w) true (impl w)))
    as [(Hc & Hac & Ha) _].
Qed.

Lemma invoke_config m w :
  config (fst (invoke platform_system TestingWatchdogDevice_from_config
                 LinuxWatchdogDevice_from_config m w)) =
    last_config [m] (config w) /\
  active (fst (invoke platform_system TestingWatchdogDevice_from_config
                 LinuxWatchdogDevice_from_config m w)) =
    last_active [m] (active w).
Proof.
  destruct m as [| | |c]; cbn [invoke fst last_config last_active fold_left].
  - by destruct (activate_frames w) as (? & _ & ?).
  - by rewrite disable_run.
  - by destruct (keepalive_frames w) as [[? ?] _].
  - destruct (active w) eqn:Hactive.
    + destruct (decide (mode c = MODE_OFF)) as [Hoff | Hon].
      * by rewrite (reload_config_off_active c w Hactive Hoff).
      * by rewrite (reload_config_while_active _ _ _ w c Hactive Hon).
    + by rewrite (reload_config_inactive c w Hactive).
Qed.

(** X13. Over any sequence of calls of the public methods, whatever the
    devices do and whatever the calls return or raise, [config] is the
    snapshot of the last [reload_config] (that of the start when there was
    none) and the active flag tells whether the last of the [activate] and
    [disable] calls was an [activate]: [keepalive] changes neither, and an
    [activate] that returns [False] leaves the manager active all the
    same. *)
Theorem config_and_active_follow_calls ms w :
  let w' := run_calls platform_system TestingWatchdogDevice_from_config
              LinuxWatchdogDevice_from_config ms w in
  config w' = last_config ms (config w) /\
  active w' = last_active ms (active w).
Proof.
  cbn zeta. revert w. induction ms as [|m ms IH]; intros w; [done |].
  cbn [run_calls last_config last_active fold_left].
  destruct (invoke_config m w) as [Hc Ha].
  cbn [last_config last_active fold_left] in Hc, Ha.
  rewrite <- Hc, <- Ha. apply IH.
Qed.

(** *** Mode Off *)

(** [keepalive()] on a manager that owns the null device and has nothing to
    apply. *)
Lemma keepalive_null_steady w :
  impl w = Null -> config w = active_config w ->
  final (Watchdog_keepalive w) = w /\
  only_null (calls (events (Watchdog_keepalive w))).
Proof.
  intros Hnull Heq. destruct (active w) eqn:Hactive.
  - pose proof (keepalive_try_steady w Hactive Heq) as Htry.
    rewrite Hnull in Htry. cbn [keepalive Impl_class on_impl NullWatchdog_class fst snd] in Htry.
    unfold Watchdog.keepalive.
    rewrite (try_except_ok _ _ _ tt) by (by rewrite Htry). rewrite Htry.
    cbn [final events]. split.
    + destruct w as [c ac a i]. cbn in *. by subst.
    + by repeat constructor.
  - rewrite (keepalive_inactive_run w Hactive). split; [done | constructor].
Qed.

Lemma disable_calls_null (l : list (Impl Dev * Op)) :
  disable_calls Null l -> only_null l.
Proof. intros [-> | [-> | [-> | ->]]]; by repeat constructor. Qed.

Lemma reload_config_off_means_null c w :
  off_means_null (final (reload_config c w)) /\
  disable_calls (impl w) (calls (events (reload_config c w))).
Proof.
  destruct (active w) eqn:Hactive.
  - destruct (decide (mode c = MODE_OFF)) as [Hoff | Hon].
    + rewrite (reload_config_off_active c w Hactive Hoff). cbn [final events].
      split; [done |].
      apply (_disable_calls (mkWatchdog c (active_config w) true (impl w))).
    + rewrite (reload_config_while_active _ _ _ w c Hactive Hon). cbn [final events].
      split; [| by left]. intros Hoff. by cbn [config] in Hoff.
  - rewrite (reload_config_inactive c w Hactive). cbn [final events].
    split; [| destruct (_ && _); by left].
    unfold off_means_null. cbn [config impl active_config]. intros Hoff.
    by rewrite (bool_decide_eq_true_2 _ Hoff).
Qed.

Lemma invoke_off_means_null m w :
  off_means_null w ->
  let s := invoke platform_system TestingWatchdogDevice_from_config
             LinuxWatchdogDevice_from_config m w in
  off_means_null (fst s) /\
  (mode (config w) = MODE_OFF -> only_null (calls (snd s))).
Proof.
  intros Hinv s. subst s.
  destruct m as [| | |c]; cbn [invoke fst snd].
  - destruct (activate_frames w) as (Hc & Hac & _). split.
    + intros Hoff. rewrite Hc in Hoff. destruct (Hinv Hoff) as [Hnull _].
      destruct (activate_null_run w Hnull) as [-> _]. done.
    + intros Hoff. destruct (Hinv Hoff) as [Hnull _].
      destruct (activate_null_run w Hnull) as [_ ->]. by repeat constructor.
  - rewrite disable_run. cbn [fst snd]. split.
    + intros Hoff. cbn [config] in Hoff. destruct (Hinv Hoff) as [Hnull Heq].
      rewrite (_disable_null w Hnull). cbn [final impl active_config config]. done.
    + intros Hoff. destruct (Hinv Hoff) as [Hnull _].
      rewrite (_disable_null w Hnull). by repeat constructor.
  - destruct (keepalive_frames w) as [[Hc _] _]. split.
    + intros Hoff. rewrite Hc in Hoff. destruct (Hinv Hoff) as [Hnull Heq].
      destruct (keepalive_null_steady w Hnull (eq_sym Heq)) as [-> _]. done.
    + intros Hoff. destruct (Hinv Hoff) as [Hnull Heq].
      by destruct (keepalive_null_steady w Hnull (eq_sym Heq)) as [_ ?].
  - destruct (reload_config_off_means_null c w) as [Hoff' Hcalls].
    split; [done |]. intros Hoff. destruct (Hinv Hoff) as [Hnull _].
    rewrite Hnull in Hcalls. by apply disable_calls_null.
Qed.

(** X14. Mode Off means no device, throughout the life of the manager.
    After any sequence of calls on a manager that [__init__] constructed,
    if the configured mode is Off then the manager owns the null device, has
    nothing pending and is not running, and whatever public method is
    called next reaches no platform device: every call it makes goes to the
    null device. *)
Theorem mode_off_no_device c w0 ms m :
  fst (__init__ c) = Watchdog.Constructed w0 ->
  let w := run_calls platform_system TestingWatchdogDevice_from_config
             LinuxWatchdogDevice_from_config ms w0 in
  mode (config w) = MODE_OFF ->
  impl w = Null /\ active_config w = config w /\ Watchdog.is_running w = false /\
  only_null (calls (snd (invoke platform_system TestingWatchdogDevice_from_config
                           LinuxWatchdogDevice_from_config m w))).
Proof.
  intros Hinit w Hoff.
  assert (off_means_null w0) as Hinv0.
  { revert Hinit. unfold Watchdog.__init__.
    destruct (bool_decide (mode c = MODE_OFF)) eqn:Hm.
    - by intros [= <-].
    - apply bool_decide_eq_false in Hm.
      destruct (_ && _); [done |]. intros [= <-]. by intros ?. }
  assert (off_means_null w) as Hinv.
  { subst w. clear Hoff Hinit. revert w0 Hinv0.
    induction ms as [|m' ms IH]; intros w0 Hinv0; [done |].
    cbn [run_calls fold_left]. apply IH.
    by destruct (invoke_off_means_null m' w0 Hinv0) as [? _]. }
  destruct (Hinv Hoff) as [Hnull Heq].
  destruct (invoke_off_means_null m w Hinv) as [_ Hcalls].
  split_and!; [done | done | | by apply Hcalls].
  unfold Watchdog.is_running. by rewrite Hnull.
Qed.

(** *** The timeout of an activated device *)

Lemma _set_timeout_safe w actual_timeout :
  outcome (Watchdog._set_timeout w) = Ok actual_timeout ->
  safe_timeout (final (Watchdog._set_timeout w)) actual_timeout.
Proof.
  unfold Watchdog._set_timeout.
  repeat run_step; cbn [outcome final after ret]; try done; intros [= <-].
  all: unfold safe_timeout; cbn [impl config] in *; try done.
  all: split; [done |]; intros Hrun.
  all: repeat match goal with
         | Hx : _ && _ = false |- _ =>
             rewrite Hrun in Hx; cbn [andb] in Hx; apply bool_decide_eq_false in Hx
         end.
  all: first [by right | left; lia].
Qed.

Lemma _activate_check_reads actual_timeout :
  reads (@Watchdog._activate_check Dev _ actual_timeout).
Proof.
  unfold Watchdog._activate_check, Watchdog._activate_report.
  repeat reads_step.
Qed.

(** The first part of [_activate] returns a timeout that is safe in the
    sense of [safe_timeout]. *)
Lemma _activate_arm_safe w :
  exists actual_timeout,
    outcome (Watchdog._activate_arm w) = Ok actual_timeout /\
    safe_timeout (final (Watchdog._activate_arm w)) actual_timeout.
Proof.
  unfold Watchdog._activate_arm.
  rewrite bind_self, bind_set_active_config.
  assert (forall w1, exists actual_timeout,
            outcome (try_except Watchdog._activate_try Watchdog._activate_except w1)
              = Ok actual_timeout /\
            safe_timeout
              (final (try_except Watchdog._activate_try Watchdog._activate_except w1))
              actual_timeout) as Htry.
  { intros w1.
    destruct (outcome (Watchdog._activate_try w1)) as [actual_timeout|e] eqn:Ho.
    - rewrite (try_except_ok _ _ _ _ Ho). exists actual_timeout. split; [done |].
      revert Ho. unfold Watchdog._activate_try. rewrite bind_call.
      destruct (snd (open (impl w1))) as [[]|e]; [| done].
      cbn [after outcome final]. apply _set_timeout_safe.
    - rewrite (try_except_raise _ _ _ _ Ho). exists (Some 1000000000).
      unfold Watchdog._activate_except. by rewrite bind_self. }
  destruct (bool_decide (timing_slack (config w) < 0)).
  - rewrite bind_assoc, bind_logger, bind_set_impl. cbn [after outcome final]. apply Htry.
  - rewrite bind_ret. apply Htry.
Qed.

(** X15. The timeout of an activated device.  After [activate()], however
    it ended, a manager that is running owns a device that reports a
    timeout, and that timeout is not shorter than [loop_wait] unless the
    device cannot be disabled.  When moreover the mode is Required and
    [activate()] returned [True], the timing slack is not negative and the
    reported timeout is 0 or does not exceed the computed timeout. *)
Theorem activate_running_timeout w :
  let r := Watchdog.activate w in
  (Watchdog.is_running (final r) = true ->
   exists t, get_timeout (impl (final r)) = Ok t /\
             (loop_wait (config w) <= t \/ can_be_disabled (impl (final r)) = Ok false)) /\
  (mode (config w) = MODE_REQUIRED -> outcome r = Ok true ->
   0 <= timing_slack (config w) /\
   Watchdog.is_running (final r) = true /\
   exists t, get_timeout (impl (final r)) = Ok t /\
             (t = 0 \/ t <= timeout (config w))).
Proof.
  intros r. subst r. unfold Watchdog.activate.
  rewrite (bind_step _ _ w tt (mkWatchdog (config w) (active_config w) true (impl w)))
    by reflexivity.
  set (w1 := mkWatchdog (config w) (active_config w) true (impl w)).
  unfold Watchdog._activate.
  destruct (_activate_arm_safe w1) as (actual_timeout & Harm & Hsafe).
  destruct (_activate_arm_activated w1) as [(Hc & _ & _) _]. cbn [w1 config] in Hc.
  rewrite (bind_ok _ _ _ _ Harm). cbn [after outcome final].
  set (w2 := final (Watchdog._activate_arm w1)) in *.
  destruct (_activate_check_reads actual_timeout w2) as [-> _].
  unfold Watchdog.is_running.
  assert (is_running (impl w2) = true ->
          exists t, actual_timeout = Some t /\ get_timeout (impl w2) = Ok t /\
                    (loop_wait (config w) <= t \/ can_be_disabled (impl w2) = Ok false))
    as Hrunning.
  { intros Hrun. destruct actual_timeout as [t|]; cbn [safe_timeout] in Hsafe.
    - destruct Hsafe as [Hget Hlw]. exists t. rewrite <- Hc. auto.
    - rewrite Hsafe in Hrun. done. }
  split.
  - intros Hrun. destruct (Hrunning Hrun) as (t & _ & ? & ?). by exists t.
  - intros Hreq Hout.
    assert (is_running (impl w2) = true /\
            and_exceeds actual_timeout (timeout (config w)) = false) as [Hrun Hexc].
    { revert Hout. unfold Watchdog._activate_check, Watchdog._activate_report.
      rewrite bind_self, Hc, Hreq.
      rewrite (bool_decide_eq_true_2 (MODE_REQUIRED = MODE_REQUIRED)) by done.
      repeat run_step; cbn [outcome after ret]; try done; intros _.
      all: match goal with
           | Hx : negb _ || _ = false |- _ => apply orb_false_iff in Hx as [Hx ?]
           end.
      all: split; [by destruct (is_running (impl w2)) | done]. }
    destruct (Hrunning Hrun) as (t & -> & Hget & _).
    split_and!; [| done | exists t; split; [done |]].
    + destruct (decide (0 <= timing_slack (config w))) as [|Hneg]; [done |].
      assert (timing_slack (config w1) < 0) as Hslack by (cbn [w1 config]; lia).
      pose proof (_activate_arm_negative_slack w1 Hslack) as Heq.
      subst w2. rewrite Heq in Hrun. done.
    + cbn [and_exceeds] in Hexc.
      apply andb_false_iff in Hexc as [Hz | Hgt].
      * left. apply negb_false_iff, bool_decide_eq_true in Hz. done.
      * right. apply bool_decide_eq_false in Hgt. lia.
Qed.

(** *** Sequences of calls *)

(** X16. Turning the watchdog on by a reload before activation does not
    construct a device.  A manager constructed with mode Off owns the null
    device; [reload_config] with another mode and the same driver and
    driver_config, while the manager is not active, records the snapshot
    without calling [get_impl]; [activate()] then opens the null device
    only, and returns [True] unless the mode is Required; the next
    [keepalive()] finds nothing to apply.  (Reloading while active instead
    constructs and opens the device at the next [keepalive()].) *)
Theorem reload_before_activate_keeps_null c c' :
  mode c = MODE_OFF -> mode c' <> MODE_OFF ->
  driver c' = driver c -> driver_config c' = driver_config c ->
  exists w0,
    fst (__init__ c) = Watchdog.Constructed w0 /\
    reload_config c' w0 = mkRun (Ok tt) (mkWatchdog c' c' false Null) [] /\
    let r := Watchdog.activate (mkWatchdog c' c' false Null) in
    outcome r = Ok (negb (bool_decide (mode c' = MODE_REQUIRED))) /\
    final r = mkWatchdog c' c' true Null /\
    calls (events r) = [(Null, OpOpen)] /\
    Watchdog_keepalive (final r) = mkRun (Ok tt) (final r) [Call Null OpKeepalive].
Proof.
  intros Hoff Hon Hdrv Hdc. exists (mkWatchdog c c false Null).
  split_and!.
  - unfold Watchdog.__init__. by rewrite (bool_decide_eq_true_2 _ Hoff).
  - rewrite reload_config_inactive by done. cbn [active_config impl].
    rewrite (bool_decide_eq_false_2 _ Hon).
    rewrite !(bool_decide_eq_false_2 (_ ≠ _))
      by (intros Hne; by apply Hne).
    done.
  - set (w1 := mkWatchdog c' c' false Null).
    assert (Watchdog.activate w1 =
            mkRun (Ok (negb (bool_decide (mode c' = MODE_REQUIRED))))
                  (mkWatchdog c' c' true Null)
                  (slack_log c' ++ Call Null OpOpen ::
                   (if bool_decide (mode c' = MODE_REQUIRED)
                    then [Log ERROR MsgRequiredNotConfigured] else []))) as Hact.
    { unfold Watchdog.activate.
      rewrite (bind_step _ _ w1 tt (mkWatchdog c' c' true Null)) by reflexivity.
      by rewrite _activate_null. }
    cbn zeta. rewrite Hact. cbn [outcome final events].
    split_and!; [done | done | |].
    + rewrite calls_app. unfold slack_log.
      by destruct (bool_decide (timing_slack _ < 0)), (bool_decide (mode _ = _)).
    + unfold Watchdog.keepalive.
      pose proof (keepalive_try_steady (mkWatchdog c' c' true Null) eq_refl eq_refl)
        as Htry.
      by rewrite (try_except_ok _ _ _ tt), Htry; rewrite ?Htry.
Qed.

(** X17. A change is applied once.  When the [try] body of [keepalive()]
    is not left by an exception, the next [keepalive()] (with no
    [reload_config] in between) enters none of the three blocks: it makes at
    most the keepalive call on the owned device, and constructs, opens and
    closes nothing. *)
Theorem keepalive_applies_once w :
  outcome (keepalive_try w) = Ok tt ->
  let w' := final (Watchdog_keepalive w) in
  let r := Watchdog_keepalive w' in
  entered (events r) = [] /\
  lifecycle (events r) = [] /\
  calls (events r) = (if active w then [(impl w', OpKeepalive)] else []) /\
  same_settings w' (final r).
Proof.
  intros Hok w' r.
  destruct (active w) eqn:Hactive.
  - assert (active w' = true /\ config w' = active_config w') as [Hactive' Heq'].
    { destruct (keepalive_frames w) as [[_ Ha] _]. fold w' in Ha.
      split; [congruence |].
      destruct (decide (config w = active_config w)) as [Heq | Hne].
      - subst w'. unfold Watchdog.keepalive.
        rewrite (try_except_ok _ _ _ tt Hok), (keepalive_try_steady w Hactive Heq).
        done.
      - symmetry. by apply keepalive_reconciles. }
    pose proof (keepalive_try_steady w' Hactive' Heq') as Htry.
    subst r. unfold Watchdog.keepalive.
    destruct (snd (keepalive (impl w'))) as [[]|e] eqn:Hk.
    + rewrite (try_except_ok _ _ _ tt) by (by rewrite Htry). rewrite Htry.
      cbn [final events]. split_and!; done.
    + rewrite (try_except_raise _ _ _ e) by (by rewrite Htry). rewrite Htry.
      cbn [after logger emit final events]. split_and!; done.
  - subst r w'. rewrite !(keepalive_inactive_run w Hactive). cbn [final].
    rewrite (keepalive_inactive_run w Hactive). done.
Qed.

(** X18. A failed keepalive postpones everything.  When the manager is
    active and the keepalive of the owned device raises, [keepalive()] logs
    the error and returns having made no other call: a pending change of
    configuration is not applied, [active_config] keeps the old snapshot,
    and the whole reconciliation is left for a later call. *)
Theorem keepalive_failure_postpones w e :
  active w = true -> snd (keepalive (impl w)) = Raise e ->
  Watchdog_keepalive w =
  mkRun (Ok tt)
        (mkWatchdog (config w) (active_config w) true (fst (keepalive (impl w))))
        [Call (impl w) OpKeepalive; Log ERROR (MsgKeepaliveError e)].
Proof.
  intros Hactive Hk.
  assert (keepalive_try w =
          mkRun (Raise e)
                (mkWatchdog (config w) (active_config w) true (fst (keepalive (impl w))))
                [Call (impl w) OpKeepalive]) as Htry.
  { unfold Watchdog.keepalive_try. by rewrite bind_self, Hactive, bind_call, Hk, Hactive. }
  unfold Watchdog.keepalive.
  rewrite (try_except_raise _ _ _ e) by (by rewrite Htry). by rewrite Htry.
Qed.


End Operations.

(** ** Further concrete inputs *)

Section MoreConcrete.
Import Scenario.



Lemma timing_slack_negative_witness :
  safety_margin (mkWatchdogConfig MODE_AUTOMATIC 15 10 (-1) "default" ∅) = -1 /\
  15 < 2 * 10 /\
  timing_slack (mkWatchdogConfig MODE_AUTOMATIC 15 10 (-1) "default" ∅) < 0.
Proof.
  split_and!; [reflexivity | lia |].
  destruct (timing_slack_negative (mkWatchdogConfig MODE_AUTOMATIC 15 10 (-1) "default" ∅))
    as (Hhalf & _ & _).
  apply (Hhalf eq_refl). simpl. lia.
Defined.

(** A manager that was never activated. *)
Lemma keepalive_inactive_witness :
  let w := built (cfg MODE_AUTOMATIC 30 "default" ∅) in
  active w = false /\ Scenario.keepalive w = mkRun (Ok tt) w [].
Proof.
  intros w. split; [reflexivity |].
  destruct (keepalive_inactive "Linux" SimDevice.from_config SimDevice.from_config w)
    as [Hinactive _].
  apply Hinactive. reflexivity.
Defined.

(** A running device and an unchanged configuration. *)
Lemma keepalive_steady_witness :
  let c := cfg MODE_AUTOMATIC 30 "default" ∅ in
  let w := mkWatchdog c c true running in
  active w = true /\ config w = active_config w /\
  Scenario.keepalive w = mkRun (Ok tt) w [Call running OpKeepalive].
Proof.
  intros c w.
  destruct (keepalive_steady "Linux" SimDevice.from_config SimDevice.from_config w
              eq_refl eq_refl) as (Hout & Hfinal & _ & _ & Hev).
  split_and!; [reflexivity | reflexivity |].
  specialize (Hev eq_refl).
  destruct (Scenario.keepalive w) as [o f l] eqn:Hrun.
  change (Watchdog.keepalive "Linux" SimDevice.from_config SimDevice.from_config w)
    with (Scenario.keepalive w) in *.
  rewrite Hrun in Hout, Hfinal, Hev. cbn [outcome final events] in Hout, Hfinal, Hev.
  rewrite Hout, Hfinal, Hev. reflexivity.
Defined.

(** A [ttl] of 60 instead of 30 on a running device. *)
Lemma keepalive_timeout_in_place_witness :
  let c30 := cfg MODE_AUTOMATIC 30 "default" ∅ in
  let c60 := cfg MODE_AUTOMATIC 60 "default" ∅ in
  let w := mkWatchdog c60 c30 true running in
  timeout (config w) <> timeout (active_config w) /\
  calls (events (Scenario.keepalive w)) =
    [(running, OpKeepalive); (running, OpSetTimeout 55)] /\
  active_config (final (Scenario.keepalive w)) = c60.
Proof.
  intros c30 c60 w.
  assert (timeout (config w) <> timeout (active_config w)) as Ht by discriminate.
  assert (mode (config w) = MODE_OFF \/ mode (active_config w) <> MODE_OFF) as Hm
    by (right; discriminate).
  assert (snd (WatchdogBase.keepalive (impl w)) = Ok tt) as Hk by reflexivity.
  destruct (keepalive_timeout_in_place "Linux" SimDevice.from_config SimDevice.from_config
              w eq_refl eq_refl eq_refl Hm Ht Hk)
    as (_ & _ & Hcalls & _ & _ & Hac & _).
  split_and!; [exact Ht | exact Hcalls |].
  apply Hac; [reflexivity |]. intros _. by exists 55.
Defined.

(** A manager constructed with mode Off, activated, then reloaded with mode
    Automatic. *)
Lemma keepalive_turns_on_witness :
  let w := final (Scenario.reload_config (cfg MODE_AUTOMATIC 30 "default" ∅)
                    (activated_from (cfg MODE_OFF 30 "default" ∅))) in
  active w = true /\ mode (config w) <> MODE_OFF /\ mode (active_config w) = MODE_OFF /\
  entered (events (Scenario.keepalive w)) = [BranchMode] /\
  active_config (final (Scenario.keepalive w)) = config w /\
  exists rest,
    lifecycle (events (Scenario.keepalive w)) = GetImpl fresh :: Call fresh OpOpen :: rest.
Proof.
  intros w.
  assert (mode (config w) <> MODE_OFF) as Hon by discriminate.
  assert (snd (WatchdogBase.keepalive (impl w)) = Ok tt) as Hk by reflexivity.
  destruct (keepalive_turns_on "Linux" SimDevice.from_config SimDevice.from_config
              w eq_refl Hon eq_refl Hk)
    as (_ & Hentered & Hac & rest & Hlife & _).
  split_and!; [reflexivity | exact Hon | reflexivity | exact Hentered | exact Hac |].
  exists rest. exact Hlife.
Defined.



Lemma init_started_witness :
  fst (Scenario.__init__ (cfg MODE_REQUIRED 30 "unknown" ∅)) = Watchdog.SystemExit 1 /\
  (forall w,
     fst (Scenario.__init__ (cfg MODE_REQUIRED 30 "default" ∅)) = Watchdog.Constructed w ->
     impl w <> Null).
Proof.
  split.
  - apply (init_started "Linux" SimDevice.from_config SimDevice.from_config
             (cfg MODE_REQUIRED 30 "unknown" ∅)).
    split; reflexivity.
  - intros w Hw.
    destruct (init_started "Linux" SimDevice.from_config SimDevice.from_config
                (cfg MODE_REQUIRED 30 "default" ∅)) as (_ & _ & Hbuilt).
    destruct (Hbuilt w Hw) as (_ & _ & _ & Hnot_null).
    apply Hnot_null. reflexivity.
Defined.

(** Another driver, loaded before activation. *)
Lemma reload_config_cases_witness :
  let w := built (cfg MODE_AUTOMATIC 30 "default" ∅) in
  let c := cfg MODE_AUTOMATIC 30 "testing" ∅ in
  active w = false /\
  final (Scenario.reload_config c w) = mkWatchdog c c false fresh /\
  events (Scenario.reload_config c w) = [GetImpl fresh].
Proof.
  intros w c.
  destruct (reload_config_cases "Linux" SimDevice.from_config SimDevice.from_config c w)
    as (_ & _ & _ & _ & _ & Hinactive).
  split; [reflexivity |]. exact (Hinactive eq_refl).
Defined.

(** Mode Off from the start: [activate()], then [keepalive()], then
    [disable()]. *)
Lemma mode_off_no_device_witness :
  let w0 := mkWatchdog (cfg MODE_OFF 30 "default" ∅) (cfg MODE_OFF 30 "default" ∅)
                       false Null in
  let w := run_calls "Linux" SimDevice.from_config SimDevice.from_config
             [CallActivate; CallKeepalive] w0 in
  fst (Scenario.__init__ (cfg MODE_OFF 30 "default" ∅)) = Watchdog.Constructed w0 /\
  mode (config w) = MODE_OFF /\
  impl w = Null /\
  only_null (calls (snd (invoke "Linux" SimDevice.from_config SimDevice.from_config
                           CallDisable w))).
Proof.
  intros w0 w.
  destruct (mode_off_no_device "Linux" SimDevice.from_config SimDevice.from_config
              (cfg MODE_OFF 30 "default" ∅) w0 [CallActivate; CallKeepalive] CallDisable
              eq_refl eq_refl) as (Hnull & _ & _ & Hcalls).
  split_and!; [reflexivity | reflexivity | exact Hnull | exact Hcalls].
Defined.

(** Required mode and a device that takes the timeout of 25 seconds. *)
Lemma activate_running_timeout_witness :
  let w := built (cfg MODE_REQUIRED 30 "default" ∅) in
  mode (config w) = MODE_REQUIRED /\
  outcome (Watchdog.activate w) = Ok true /\
  Watchdog.is_running (final (Watchdog.activate w)) = true /\
  exists t, get_timeout (impl (final (Watchdog.activate w))) = Ok t /\
            (t = 0 \/ t <= timeout (config w)).
Proof.
  intros w.
  destruct (activate_running_timeout w) as [_ Hsafe].
  destruct (Hsafe eq_refl eq_refl) as (_ & Hrun & Htimeout).
  split_and!; [reflexivity | reflexivity | exact Hrun | exact Htimeout].
Defined.

Lemma reload_before_activate_keeps_null_witness :
  let c := cfg MODE_OFF 30 "default" ∅ in
  let c' := cfg MODE_AUTOMATIC 30 "default" ∅ in
  mode c = MODE_OFF /\ mode c' <> MODE_OFF /\
  exists w0,
    fst (Scenario.__init__ c) = Watchdog.Constructed w0 /\
    Scenario.reload_config c' w0 = mkRun (Ok tt) (mkWatchdog c' c' false Null) [] /\
    final (Watchdog.activate (mkWatchdog c' c' false Null)) = mkWatchdog c' c' true Null.
Proof.
  intros c c'.
  assert (mode c' <> MODE_OFF) as Hon by discriminate.
  destruct (reload_before_activate_keeps_null "Linux" SimDevice.from_config
              SimDevice.from_config c c' eq_refl Hon eq_refl eq_refl)
    as (w0 & Hinit & Hreload & _ & Hfinal & _).
  split_and!; [reflexivity | exact Hon |].
  exists w0. split_and!; [exact Hinit | exact Hreload | exact Hfinal].
Defined.

(** A [ttl] of 60 instead of 30, applied by one [keepalive()]. *)
Lemma keepalive_applies_once_witness :
  let c30 := cfg MODE_AUTOMATIC 30 "default" ∅ in
  let c60 := cfg MODE_AUTOMATIC 60 "default" ∅ in
  let w := mkWatchdog c60 c30 true running in
  outcome (Watchdog.keepalive_try "Linux" SimDevice.from_config SimDevice.from_config w)
    = Ok tt /\
  entered (events (Scenario.keepalive w)) = [BranchTimeout] /\
  entered (events (Scenario.keepalive (final (Scenario.keepalive w)))) = [].
Proof.
  intros c30 c60 w.
  assert (outcome (Watchdog.keepalive_try "Linux" SimDevice.from_config
                     SimDevice.from_config w) = Ok tt) as Hok by (vm_compute; reflexivity).
  destruct (keepalive_applies_once "Linux" SimDevice.from_config SimDevice.from_config
              w Hok) as (Hentered & _).
  split_and!; [exact Hok | vm_compute; reflexivity | exact Hentered].
Defined.

(** A device whose keepalive fails, with a change of [ttl] pending. *)
Lemma keepalive_failure_postpones_witness :
  let c30 := cfg MODE_AUTOMATIC 30 "default" ∅ in
  let c60 := cfg MODE_AUTOMATIC 60 "default" ∅ in
  let w := mkWatchdog c60 c30 true stuck in
  active w = true /\
  snd (WatchdogBase.keepalive (impl w)) = Raise "Could not send watchdog keepalive" /\
  final (Scenario.keepalive w) = w /\
  calls (events (Scenario.keepalive w)) = [(stuck, OpKeepalive)].
Proof.
  intros c30 c60 w.
  assert (snd (WatchdogBase.keepalive (impl w)) = Raise "Could not send watchdog keepalive")
    as Hk by reflexivity.
  pose proof (keepalive_failure_postpones "Linux" SimDevice.from_config
                SimDevice.from_config w _ eq_refl Hk) as Hrun.
  split_and!; [reflexivity | exact Hk | |];
    unfold Scenario.keepalive; by rewrite Hrun.
Defined.


End MoreConcrete.
